(** * Portfolio Synthetic Call Transformer: the allocation core of [app.py]

    A shallow embedding of [load_sample_data] and [process_portfolio]
    (src/app.py) and the properties of the transformation run.

    Modelling conventions.
    - A pandas DataFrame is the list of its rows, in index order.
    - Quantities, strikes and market prices are exact integers ([Z]), as in
      the sample dataset; a missing strike (pandas NaN) is [None]. The code
      computes in int64 and float64: it agrees with the integers as long as
      the magnitudes stay within the range where both are exact
      ([exact_quantities], [exact_frame]). Frames of decimal numbers are
      embedded in binary64 in the module [F64].
    - The [Instrument] column holds ASCII strings; [str.strip], [str.lower]
      and [str.contains(..., case=False)] are modelled on them.
    - [process_portfolio] writes the normalised instrument names back into
      the caller's frame, so the model returns the frame after the call
      next to the returned triple.
    - [st.error] followed by [return None, None, None] is the result [None]. *)

From Equations Require Import Equations.
From Stdlib Require Import ZArith List String Ascii Bool Arith Lia Sorted
  Permutation.
From Stdlib Require PrimFloat FloatOps SpecFloat.
Import ListNotations.

Set Implicit Arguments.
Open Scope Z_scope.

(** ** Python string operations used on the [Instrument] column *)

Module PyStr.

(** [str.isspace] on one ASCII character: TAB..CR, FS..US and the blank. *)
Definition is_space (c : ascii) : bool :=
  let n := nat_of_ascii c in
  ((9 <=? n)%nat && (n <=? 13)%nat) || ((28 <=? n)%nat && (n <=? 32)%nat).

Definition lower_char (c : ascii) : ascii :=
  let n := nat_of_ascii c in
  if ((65 <=? n)%nat && (n <=? 90)%nat) then ascii_of_nat (n + 32) else c.

Fixpoint lower (s : string) : string :=
  match s with
  | EmptyString => EmptyString
  | String c t => String (lower_char c) (lower t)
  end.

Fixpoint lstrip (s : string) : string :=
  match s with
  | EmptyString => EmptyString
  | String c t => if is_space c then lstrip t else s
  end.

Definition is_empty (s : string) : bool :=
  match s with EmptyString => true | String _ _ => false end.

Fixpoint rstrip (s : string) : string :=
  match s with
  | EmptyString => EmptyString
  | String c t =>
      let r := rstrip t in
      if is_space c && is_empty r then EmptyString else String c r
  end.

Definition strip (s : string) : string := rstrip (lstrip s).

(** [pat in s]: substring search. *)
Fixpoint contains (pat s : string) : bool :=
  if String.prefix pat s then true
  else match s with
       | EmptyString => false
       | String _ t => contains pat t
       end.

(** [Series.str.contains(pat, case=False)] for a pattern without regular
    expression metacharacters. *)
Definition contains_nocase (pat s : string) : bool :=
  contains (lower pat) (lower s).

End PyStr.

(** ** Data model *)

(** One row of the input frame: columns [Instrument], [Position], [Strike]
    and [Market price]. *)
Record Row : Type := mkRow {
  Instrument : string;
  Position : Z;
  Strike : option Z;
  Market_price : Z
}.

Definition DataFrame : Type := list Row.

Inductive Source : Type := Futures | Cash | Puts.

Inductive Action : Type := Create_Synthetic_Call | Unmatched_Puts.

Inductive EntryType : Type :=
  Type_Futures | Type_Cash | Synthetic_Call | Original_Call | Unmatched_Put.

Inductive RiskType : Type := Long_Stock | Call_like | Put_Protection.

(** An element of [synthetic_calls]; ['Created From'] is the text
    [f'{source} + Put@{strike}'], kept here as its two components. *)
Record SyntheticCall : Type := mkSC {
  sc_Type : EntryType;
  sc_Strike : Z;
  sc_Position : Z;
  sc_Value_per_Unit : Z;
  sc_Total_Value : Z;
  sc_Created_From : Source * Z
}.

(** An element of [transformation_log]; ['Synthetic Value'] is a number or
    the text ['N/A'] ([None]). *)
Record LogEntry : Type := mkLog {
  log_Step : Z;
  log_Action : Action;
  log_Source : Source;
  log_Amount : Z;
  log_Put_Strike : Z;
  log_Put_Price : Z;
  log_Synthetic_Value : option Z
}.

(** An element of [final_portfolio]. *)
Record PortfolioEntry : Type := mkEntry {
  fp_Type : EntryType;
  fp_Strike : option Z;
  fp_Position : Z;
  fp_Value_per_Unit : Z;
  fp_Total_Value : Z;
  fp_Risk_Type : RiskType
}.

Definition Source_eqb (a b : Source) : bool :=
  match a, b with
  | Futures, Futures | Cash, Cash | Puts, Puts => true
  | _, _ => false
  end.

Definition Action_eqb (a b : Action) : bool :=
  match a, b with
  | Create_Synthetic_Call, Create_Synthetic_Call
  | Unmatched_Puts, Unmatched_Puts => true
  | _, _ => false
  end.

Definition EntryType_eqb (a b : EntryType) : bool :=
  match a, b with
  | Type_Futures, Type_Futures | Type_Cash, Type_Cash
  | Synthetic_Call, Synthetic_Call | Original_Call, Original_Call
  | Unmatched_Put, Unmatched_Put => true
  | _, _ => false
  end.

(** ** [load_sample_data] *)

Definition load_sample_data : DataFrame :=
  [ mkRow "Futures" 100000 None 1191;
    mkRow "Cash" 200000 None 1190;
    mkRow "Puts" 5000 (Some 1240) 60;
    mkRow "Puts" 10000 (Some 1230) 65;
    mkRow "Puts" 100000 (Some 1200) 25;
    mkRow "Puts" 100000 (Some 1150) 8;
    mkRow "Puts" 100000 (Some 1100) 4;
    mkRow "Calls" 100000 (Some 1200) 12;
    mkRow "Calls" 11000 (Some 1250) 4;
    mkRow "Calls" 11000 (Some 1150) 62 ].

(** ** Frame operations of [process_portfolio] *)

(** [df['Instrument'].str.strip().str.lower()] on one row. *)
Definition normalize_name (s : string) : string := PyStr.lower (PyStr.strip s).

Definition standardize_row (r : Row) : Row :=
  mkRow (normalize_name (Instrument r)) (Position r) (Strike r) (Market_price r).

(** [df['Instrument'] = ...]: the assignment to the caller's frame. *)
Definition standardize (df : DataFrame) : DataFrame := map standardize_row df.

Definition is_futures (r : Row) : bool := String.eqb (Instrument r) "futures".
Definition is_cash (r : Row) : bool := String.eqb (Instrument r) "cash".
Definition is_put (r : Row) : bool := PyStr.contains_nocase "put" (Instrument r).
Definition is_call (r : Row) : bool := PyStr.contains_nocase "call" (Instrument r).

(** [frame['Position'].sum()], which is 0 on an empty frame. *)
Definition sum_Position (frame : DataFrame) : Z :=
  fold_right Z.add 0 (map Position frame).

(** [pd.isna]. *)
Definition isna (k : option Z) : bool :=
  match k with None => true | Some _ => false end.

(** Comparison of two strikes as numbers; any comparison with NaN is false. *)
Definition strike_ltb (a b : option Z) : bool :=
  match a, b with
  | Some x, Some y => x <? y
  | _, _ => false
  end.

Definition strike_eqb (a b : option Z) : bool :=
  match a, b with
  | Some x, Some y => x =? y
  | _, _ => false
  end.

(** [sort_values('Strike', ascending=False)]: the rows with a strike in
    descending strike order, rows of equal strike in their input order,
    followed by the rows without a strike (NaN goes last). *)
Fixpoint insert_desc (r : Row) (l : list Row) : list Row :=
  match l with
  | [] => [r]
  | h :: t =>
      if strike_ltb (Strike r) (Strike h) then h :: insert_desc r t
      else r :: h :: t
  end.

Definition sort_desc (l : list Row) : list Row := fold_right insert_desc [] l.

Definition sort_values_Strike_desc (frame : DataFrame) : DataFrame :=
  sort_desc (filter (fun r => negb (isna (Strike r))) frame)
  ++ filter (fun r => isna (Strike r)) frame.

(** Identity of two column values for [Series.unique], which keeps one NaN. *)
Definition same_value (a b : option Z) : bool :=
  match a, b with
  | None, None => true
  | Some x, Some y => x =? y
  | _, _ => false
  end.

(** [Series.unique()]: the distinct values in order of first appearance. *)
Fixpoint unique (l : list (option Z)) : list (option Z) :=
  match l with
  | [] => []
  | x :: t => x :: filter (fun y => negb (same_value x y)) (unique t)
  end.

(** ** The allocation loop *)

(** The variables the loops of [process_portfolio] update. *)
Record Alloc : Type := mkAlloc {
  remaining_futures : Z;
  remaining_cash : Z;
  synthetic_calls : list SyntheticCall;
  transformation_log : list LogEntry
}.

(** [synthetic_value = put_market_price + (underlying_price - strike)]. *)
Definition synthetic_value_of (put_market_price underlying_price strike : Z) : Z :=
  put_market_price + (underlying_price - strike).

(** The guard of the [while] statement. *)
Definition loop_cond (puts_to_process : Z) (st : Alloc) : bool :=
  (0 <? puts_to_process)
  && ((0 <? remaining_futures st) || (0 <? remaining_cash st)).

(** One pass through the body of the [while] statement; it returns the new
    [puts_to_process] and the updated variables. *)
Definition loop_body (underlying_price strike put_market_price : Z)
    (puts_to_process : Z) (st : Alloc) : Z * Alloc :=
  let '(process_amount, remaining_futures', remaining_cash', source) :=
    if 0 <? remaining_futures st then
      let process_amount := Z.min puts_to_process (remaining_futures st) in
      (process_amount, remaining_futures st - process_amount,
       remaining_cash st, Futures)
    else
      let process_amount := Z.min puts_to_process (remaining_cash st) in
      (process_amount, remaining_futures st,
       remaining_cash st - process_amount, Cash) in
  let puts_to_process' := puts_to_process - process_amount in
  let synthetic_value :=
    synthetic_value_of put_market_price underlying_price strike in
  (puts_to_process',
   mkAlloc remaining_futures' remaining_cash'
     (synthetic_calls st ++
        [mkSC Synthetic_Call strike process_amount synthetic_value
              (process_amount * synthetic_value) (source, strike)])
     (transformation_log st ++
        [mkLog (Z.of_nat (List.length (transformation_log st)) + 1)
               Create_Synthetic_Call source process_amount strike
               put_market_price (Some synthetic_value)])).

Definition positive (z : Z) : nat := if 0 <? z then 1%nat else 0%nat.

(** The number of positive values among the put quantity left and the two
    balances; every pass through the loop body lowers it. *)
Definition loop_measure (puts_to_process : Z) (st : Alloc) : nat :=
  (positive puts_to_process + positive (remaining_futures st)
   + positive (remaining_cash st))%nat.

Lemma loop_body_decreases u k p ptp st :
  loop_cond ptp st = true ->
  (loop_measure (fst (loop_body u k p ptp st)) (snd (loop_body u k p ptp st))
   < loop_measure ptp st)%nat.
Proof.
  unfold loop_cond, loop_body, loop_measure, positive.
  destruct st as [rf rc scs lg]; simpl.
  intros H. apply andb_true_iff in H. destruct H as [Hp Hs].
  apply Z.ltb_lt in Hp. apply orb_true_iff in Hs.
  destruct (Z.ltb_spec 0 rf) as [Hf | Hf]; simpl.
  - destruct (Z.min_spec ptp rf) as [[Hlt ->] | [Hle ->]];
      repeat match goal with
             | |- context [0 <? ?x] => destruct (Z.ltb_spec 0 x)
             end; simpl; lia.
  - assert (Hc : 0 < rc) by (destruct Hs as [Hs | Hs]; [discriminate | apply Z.ltb_lt in Hs; lia]).
    destruct (Z.min_spec ptp rc) as [[Hlt ->] | [Hle ->]];
      repeat match goal with
             | |- context [0 <? ?x] => destruct (Z.ltb_spec 0 x)
             end; simpl; lia.
Qed.

Definition inspect {A : Type} (a : A) : { b : A | a = b } := exist _ a eq_refl.

(** [while puts_to_process > 0 and (remaining_futures > 0 or
    remaining_cash > 0): ...] for one put row. *)
Equations? while_loop (underlying_price strike put_market_price : Z)
    (puts_to_process : Z) (st : Alloc) : Z * Alloc
    by wf (loop_measure puts_to_process st) lt :=
  while_loop u k p ptp st with inspect (loop_cond ptp st) => {
    | exist _ true Hc =>
        while_loop u k p (fst (loop_body u k p ptp st))
                   (snd (loop_body u k p ptp st));
    | exist _ false _ => (ptp, st) }.
Proof. apply loop_body_decreases; assumption. Qed.

(** Lines 159-168: the ['Unmatched Puts'] record appended to the log. *)
Definition log_unmatched (strike put_market_price puts_to_process : Z)
    (st : Alloc) : Alloc :=
  mkAlloc (remaining_futures st) (remaining_cash st) (synthetic_calls st)
    (transformation_log st ++
       [mkLog (Z.of_nat (List.length (transformation_log st)) + 1)
              Unmatched_Puts Puts puts_to_process strike
              put_market_price None]).

(** The body of [for _, put_row in puts_at_strike.iterrows()]: the [while]
    loop, then the ['Unmatched Puts'] record when some quantity is left. *)
Definition process_put_row (underlying_price strike : Z) (st : Alloc)
    (put_row : Row) : Alloc :=
  let puts_to_process := Position put_row in
  let put_market_price := Market_price put_row in
  let '(puts_to_process', st') :=
    while_loop underlying_price strike put_market_price puts_to_process st in
  if 0 <? puts_to_process' then
    log_unmatched strike put_market_price puts_to_process' st'
  else st'.

(** The body of [for strike in puts_sorted['Strike'].unique()]. *)
Definition process_strike (underlying_price : Z) (puts_sorted : DataFrame)
    (st : Alloc) (strike : option Z) : Alloc :=
  match strike with
  | None => st
  | Some k =>
      let puts_at_strike :=
        filter (fun r => strike_eqb (Strike r) (Some k)) puts_sorted in
      fold_left (process_put_row underlying_price k) puts_at_strike st
  end.

(** Lines 103-168: the variables after the loop over the strikes. *)
Definition allocate (underlying_price : Z) (puts_sorted : DataFrame)
    (total_futures total_cash : Z) : Alloc :=
  fold_left (process_strike underlying_price puts_sorted)
            (unique (map Strike puts_sorted))
            (mkAlloc total_futures total_cash [] []).

(** ** Assembly of the final portfolio *)

Definition stock_rows (underlying_price : Z) (st : Alloc) : list PortfolioEntry :=
  (if 0 <? remaining_futures st then
     [mkEntry Type_Futures None (remaining_futures st) underlying_price
              (remaining_futures st * underlying_price) Long_Stock]
   else [])
  ++
  (if 0 <? remaining_cash st then
     [mkEntry Type_Cash None (remaining_cash st) underlying_price
              (remaining_cash st * underlying_price) Long_Stock]
   else []).

Definition synthetic_row (sc : SyntheticCall) : PortfolioEntry :=
  mkEntry (sc_Type sc) (Some (sc_Strike sc)) (sc_Position sc)
          (sc_Value_per_Unit sc) (sc_Total_Value sc) Call_like.

Definition call_row (call_row : Row) : PortfolioEntry :=
  mkEntry Original_Call (Strike call_row) (Position call_row)
          (Market_price call_row)
          (Position call_row * Market_price call_row) Call_like.

(** [for _, put_row in remaining_puts_df.iterrows()] with its [break]. *)
Fixpoint unmatched_loop (rows : list Row) (unmatched_puts : Z)
    : list PortfolioEntry :=
  match rows with
  | [] => []
  | put_row :: rest =>
      if unmatched_puts <=? 0 then []
      else
        let position := Z.min (Position put_row) unmatched_puts in
        if 0 <? position then
          mkEntry Unmatched_Put (Strike put_row) position
                  (Market_price put_row) (position * Market_price put_row)
                  Put_Protection
          :: unmatched_loop rest (unmatched_puts - position)
        else unmatched_loop rest unmatched_puts
  end.

(** Lines 216-239. *)
Definition unmatched_rows (puts puts_sorted : DataFrame)
    (total_futures total_cash : Z) (st : Alloc) : list PortfolioEntry :=
  let total_puts := sum_Position puts in
  let matched_puts :=
    total_futures + total_cash - remaining_futures st - remaining_cash st in
  let unmatched_puts := total_puts - matched_puts in
  if 0 <? unmatched_puts then unmatched_loop puts_sorted unmatched_puts
  else [].

(** ** [process_portfolio] *)

(** The local variables of a run that reaches the [return] on line 241. *)
Record Run : Type := mkRun {
  underlying_price : Z;
  total_futures : Z;
  total_cash : Z;
  puts_sorted : DataFrame;
  allocation : Alloc;
  final_portfolio : list PortfolioEntry
}.

(** Lines 87-94: the price of the first futures row, else of the first cash
    row, else the error. *)
Definition get_underlying_price (futures cash : DataFrame) : option Z :=
  match futures with
  | r :: _ => Some (Market_price r)
  | [] =>
      match cash with
      | r :: _ => Some (Market_price r)
      | [] => None
      end
  end.

(** Lines 81-241 on the frame with standardised instrument names. *)
Definition run (df : DataFrame) : option Run :=
  let futures := filter is_futures df in
  let cash := filter is_cash df in
  let puts := filter is_put df in
  let calls := filter is_call df in
  match get_underlying_price futures cash with
  | None => None
  | Some underlying_price =>
      let total_futures := sum_Position futures in
      let total_cash := sum_Position cash in
      let puts_sorted := sort_values_Strike_desc puts in
      let st := allocate underlying_price puts_sorted total_futures total_cash in
      let final_portfolio :=
        stock_rows underlying_price st
        ++ map synthetic_row (synthetic_calls st)
        ++ map call_row calls
        ++ unmatched_rows puts puts_sorted total_futures total_cash st in
      Some (mkRun underlying_price total_futures total_cash puts_sorted st
                  final_portfolio)
  end.

(** The value [process_portfolio] returns: [Some (final_portfolio,
    transformation_log, underlying_price)], or [None] for the triple of
    [None]s. *)
Definition Result : Type := option (list PortfolioEntry * list LogEntry * Z).

Definition result_of (r : Run) : list PortfolioEntry * list LogEntry * Z :=
  (final_portfolio r, transformation_log (allocation r), underlying_price r).

(** [process_portfolio(df)]: the caller's frame after the call, and the
    returned value. *)
Definition process_portfolio (df : DataFrame) : DataFrame * Result :=
  let df' := standardize df in
  (df', option_map result_of (run df')).

(** ** Observations on the outputs *)

Definition is_create (e : LogEntry) : bool :=
  Action_eqb (log_Action e) Create_Synthetic_Call.

Definition has_source (s : Source) (e : LogEntry) : bool :=
  Source_eqb (log_Source e) s.

Definition has_type (t : EntryType) (e : PortfolioEntry) : bool :=
  EntryType_eqb (fp_Type e) t.

(** The sum of a list of numbers. *)
Definition sumZ (l : list Z) : Z := fold_right Z.add 0 l.

(** The iterates of the loop body, for counting passes through the loop. *)
Fixpoint iterate_body (n : nat) (u k p : Z) (s : Z * Alloc) : Z * Alloc :=
  match n with
  | O => s
  | S m => iterate_body m u k p (loop_body u k p (fst s) (snd s))
  end.

(** ** Vocabulary of the properties *)

(** The record one pass appends to [synthetic_calls]. *)
Definition new_call (u k p amount : Z) (source : Source) : SyntheticCall :=
  mkSC Synthetic_Call k amount (synthetic_value_of p u k)
       (amount * synthetic_value_of p u k) (source, k).

(** The record one pass appends to [transformation_log]. *)
Definition new_step (u k p amount : Z) (source : Source) (st : Alloc)
    : LogEntry :=
  mkLog (Z.of_nat (List.length (transformation_log st)) + 1)
        Create_Synthetic_Call source amount k p
        (Some (synthetic_value_of p u k)).

(** The loop invariant behind stock-side conservation. *)
Definition conserved (tf tc : Z) (st : Alloc) : Prop :=
  sumZ (map sc_Position (synthetic_calls st))
    + remaining_futures st + remaining_cash st = tf + tc
  /\ remaining_futures st <= tf
  /\ remaining_cash st <= tc.

(** The quantity the Create Synthetic Call steps of a log drew from Futures. *)
Definition futures_drawn (log : list LogEntry) : Z :=
  sumZ (map log_Amount
            (filter (fun e => is_create e && has_source Futures e) log)).

(** The value of [remaining_futures] once the steps of [log] are taken,
    starting from [total_futures]. *)
Definition futures_balance (total_futures : Z) (log : list LogEntry) : Z :=
  total_futures - futures_drawn log.

(** The loop invariant behind source priority. *)
Definition priority_kept (tf : Z) (st : Alloc) : Prop :=
  remaining_futures st = futures_balance tf (transformation_log st)
  /\ (0 <= tf -> 0 <= remaining_futures st)
  /\ forall pre e post,
       transformation_log st = pre ++ e :: post ->
       log_Action e = Create_Synthetic_Call ->
       log_Source e = Cash ->
       futures_balance tf pre <= 0
       /\ (0 <= tf -> futures_balance tf pre = 0).

(** A frame whose single put lot draws from Futures and then from Cash. *)
Definition two_source_frame : DataFrame :=
  [ mkRow "Futures" 1 None 10;
    mkRow "Cash" 5 None 10;
    mkRow "Puts" 3 (Some 9) 1 ].

(** A synthetic call [sc] and the log step [e] recorded with it: [sc] is
    valued by the formula from the price of a put row of its strike. *)
Definition valued_by (u : Z) (puts : DataFrame) (sc : SyntheticCall)
    (e : LogEntry) : Prop :=
  sc_Strike sc = log_Put_Strike e
  /\ sc_Position sc = log_Amount e
  /\ sc_Value_per_Unit sc = log_Put_Price e + (u - sc_Strike sc)
  /\ sc_Total_Value sc = sc_Position sc * sc_Value_per_Unit sc
  /\ log_Synthetic_Value e = Some (sc_Value_per_Unit sc)
  /\ exists put_row,
       In put_row puts /\ Strike put_row = Some (sc_Strike sc)
       /\ Market_price put_row = log_Put_Price e.

(** The loop invariant behind the valuation formula. *)
Definition valued (u : Z) (puts : DataFrame) (st : Alloc) : Prop :=
  Forall2 (valued_by u puts) (synthetic_calls st)
          (filter is_create (transformation_log st)).

(** [Total Value = Position * Value per Unit] for a final portfolio row. *)
Definition total_is_product (e : PortfolioEntry) : Prop :=
  fp_Total_Value e = fp_Position e * fp_Value_per_Unit e.

(** [a] is not below [b] as a strike; vacuous when either is missing. *)
Definition desc (a b : option Z) : Prop :=
  forall x y, a = Some x -> b = Some y -> y <= x.

(** The steps a strike adds to the log all carry that strike. *)
Definition extends_with (k : Z) (st0 st : Alloc) : Prop :=
  exists block,
    transformation_log st = transformation_log st0 ++ block
    /\ Forall (fun e => log_Put_Strike e = k) block.

(** A row is a Futures (Cash) position when its standardised instrument
    name is ["futures"] (["cash"]). *)
Definition is_futures_position (r : Row) : bool := is_futures (standardize_row r).
Definition is_cash_position (r : Row) : bool := is_cash (standardize_row r).

(** [pd.notna]. *)
Definition notna (s : option Z) : bool := negb (isna s).

(** Selections of final portfolio rows by their [Type]. *)
Definition is_not_unmatched (e : PortfolioEntry) : bool :=
  negb (has_type Unmatched_Put e).

Definition is_stock_or_synthetic (e : PortfolioEntry) : bool :=
  has_type Type_Futures e || has_type Type_Cash e || has_type Synthetic_Call e.

(** A put position without a strike, and one that is not also read as a
    call. *)
Definition is_put_without_strike (r : Row) : bool :=
  is_put (standardize_row r) && isna (Strike r).

Definition is_plain_put_without_strike (r : Row) : bool :=
  is_put_without_strike r && negb (is_call (standardize_row r)).

(** The frame without the rows that [drop] selects. *)
Definition drop_rows (drop : Row -> bool) (df : DataFrame) : DataFrame :=
  filter (fun r => negb (drop r)) df.

(** A futures position and one put without a strike. *)
Definition missing_strike_frame : DataFrame :=
  [ mkRow "Futures" 10 None 100;
    mkRow "Puts" 5 None 3 ].

(** The rows of the final portfolio with a given [Type]. *)
Definition rows_of_type (t : EntryType) (fp : list PortfolioEntry)
    : list PortfolioEntry :=
  filter (has_type t) fp.

(** An Unmatched Puts step for [amount] at [strike]. *)
Definition is_unmatched_step (amount strike : Z) (e : LogEntry) : Prop :=
  log_Action e = Unmatched_Puts /\ log_Amount e = amount
  /\ log_Put_Strike e = strike.

(** The outcome the scenario of the specification expects of the sample
    run. *)
Definition sample_expectation (fp : list PortfolioEntry)
    (log : list LogEntry) : Prop :=
  rows_of_type Type_Futures fp = []
  /\ rows_of_type Type_Cash fp = []
  /\ (5 <= List.length (rows_of_type Synthetic_Call fp))%nat
  /\ List.length (rows_of_type Original_Call fp) = 2%nat
  /\ (exists e, rows_of_type Unmatched_Put fp = [e]
                /\ fp_Position e = 15000 /\ fp_Strike e = Some 1100)
  /\ (exists e, In e log /\ is_unmatched_step 15000 1100 e).

(** The expectation read on the run of [process_portfolio] on the sample. *)
Definition sample_claim : Prop :=
  match snd (process_portfolio load_sample_data) with
  | Some (fp, log, _) => sample_expectation fp log
  | None => False
  end.

(** The quantity the Create Synthetic Call steps consumed at a strike. *)
Definition matched_at (k : Z) (log : list LogEntry) : Z :=
  sumZ (map log_Amount
            (filter (fun e => is_create e && (log_Put_Strike e =? k)) log)).

(** The quantity the Unmatched Put rows of the final portfolio attribute to
    a strike. *)
Definition unmatched_at (k : Z) (fp : list PortfolioEntry) : Z :=
  sumZ (map fp_Position
            (filter (fun e => has_type Unmatched_Put e
                              && same_value (fp_Strike e) (Some k)) fp)).

(** The quantity the Unmatched Puts steps of the log leave at a strike. *)
Definition left_over_at (k : Z) (log : list LogEntry) : Z :=
  sumZ (map log_Amount
            (filter (fun e => negb (is_create e) && (log_Put_Strike e =? k))
                    log)).

(** ** Vocabulary of the further properties *)

(** The steps of the log carry the numbers 1, 2, ... in order. *)
Definition numbered (st : Alloc) : Prop :=
  map log_Step (transformation_log st)
  = map Z.of_nat (seq 1 (List.length (transformation_log st))).

(** Every recorded amount is positive, and every synthetic call has the
    type ['Synthetic Call']. *)
Definition amounts_positive (st : Alloc) : Prop :=
  Forall (fun e => 0 < log_Amount e) (transformation_log st)
  /\ Forall (fun sc => 0 < sc_Position sc /\ sc_Type sc = Synthetic_Call)
            (synthetic_calls st).

(** A balance whose total was not negative is not negative. *)
Definition not_overdrawn (tf tc : Z) (st : Alloc) : Prop :=
  (0 <= tf -> 0 <= remaining_futures st)
  /\ (0 <= tc -> 0 <= remaining_cash st).

(** The sources of the Create Synthetic Call steps, in step order. *)
Definition create_sources (log : list LogEntry) : list Source :=
  map log_Source (filter is_create log).

(** Once a step has drawn from Cash, no later step draws from Futures. *)
Definition cash_is_final (a b : Source) : Prop := a = Cash -> b <> Futures.

(** The loop invariant behind the order of the sources. *)
Definition sources_ordered (st : Alloc) : Prop :=
  StronglySorted cash_is_final (create_sources (transformation_log st))
  /\ (In Cash (create_sources (transformation_log st)) ->
      remaining_futures st <= 0).

(** Either no Unmatched Puts step was recorded yet, or the ledger is
    exhausted. *)
Definition exhausted_if_unmatched (st : Alloc) : Prop :=
  Forall (fun e => log_Action e = Create_Synthetic_Call)
         (transformation_log st)
  \/ (remaining_futures st <= 0 /\ remaining_cash st <= 0).

(** The quantity of the rows that the loop over the strikes visits. *)
Definition visited (ps : DataFrame) (s : option Z) : Z :=
  match s with
  | Some k => sum_Position (filter (fun r => strike_eqb (Strike r) (Some k)) ps)
  | None => 0
  end.

(** The sum of the amounts of all steps of the log. *)
Definition logged (st : Alloc) : Z :=
  sumZ (map log_Amount (transformation_log st)).

(** The puts of a frame that have a strike. *)
Definition puts_with_strike (df : DataFrame) : DataFrame :=
  filter (fun r => negb (isna (Strike r))) (filter is_put df).

(** The instrument names the run reads: exactly ["futures"] or ["cash"],
    or a name containing ["put"] or ["call"], after standardisation. *)
Definition is_recognized (r : Row) : bool :=
  is_futures r || is_cash r || is_put r || is_call r.

(** Equality of risk types, for the [== 'Long Stock'] selections. *)
Definition RiskType_eqb (a b : RiskType) : bool :=
  match a, b with
  | Long_Stock, Long_Stock | Call_like, Call_like
  | Put_Protection, Put_Protection => true
  | _, _ => false
  end.

(** The risk type that goes with each type of row. *)
Definition risk_of (t : EntryType) : RiskType :=
  match t with
  | Type_Futures | Type_Cash => Long_Stock
  | Synthetic_Call | Original_Call => Call_like
  | Unmatched_Put => Put_Protection
  end.

(** [display_df['Total Value'].sum()] (main, line 380) on a frame that is
    not empty; rounding to two decimals leaves the integers of the model as
    they are. (On an empty final portfolio the frame has no columns and
    line 356 raises KeyError.) *)
Definition total_value (display_df : list PortfolioEntry) : Z :=
  sumZ (map fp_Total_Value display_df).

(** [display_df[display_df['Risk Type'] == risk]['Total Value'].sum()]
    (main, lines 384, 388 and 392). *)
Definition exposure (risk : RiskType) (display_df : list PortfolioEntry) : Z :=
  sumZ (map fp_Total_Value
            (filter (fun e => RiskType_eqb (fp_Risk_Type e) risk) display_df)).

(** A row whose risk type is the one of its type. *)
Definition risk_by_type (e : PortfolioEntry) : Prop :=
  fp_Risk_Type e = risk_of (fp_Type e).






(** The numbers of Create Synthetic Call steps and of other steps. *)
Definition creates (log : list LogEntry) : Z :=
  Z.of_nat (List.length (filter is_create log)).

Definition others (log : list LogEntry) : Z :=
  Z.of_nat (List.length (filter (fun e => negb (is_create e)) log)).

(** 1 for a positive number, else 0. *)
Definition pos (z : Z) : Z := if 0 <? z then 1 else 0.

(** The number of rows that the loop over the strikes visits. *)
Definition visited_count (ps : DataFrame) (s : option Z) : Z :=
  match s with
  | Some k =>
      Z.of_nat (List.length
                  (filter (fun r => strike_eqb (Strike r) (Some k)) ps))
  | None => 0
  end.

(** An Unmatched Put row taken from the put row [p]. *)
Definition taken_from (p : Row) (e : PortfolioEntry) : Prop :=
  fp_Strike e = Strike p
  /\ fp_Value_per_Unit e = Market_price p
  /\ 0 < fp_Position e <= Position p.

(** The state of an allocation that never drew from the ledger. *)
Definition nothing_drawn (tf tc : Z) (st : Alloc) : Prop :=
  remaining_futures st = tf /\ remaining_cash st = tc
  /\ synthetic_calls st = []
  /\ Forall (fun e => log_Action e = Unmatched_Puts) (transformation_log st).

(** A futures position of quantity zero and a put. *)
Definition empty_ledger_frame : DataFrame :=
  [ mkRow "Futures" 0 None 100;
    mkRow "Puts" 5 (Some 90) 3 ].


(** ** The run on frames of decimal numbers *)

(** When a numeric column of the input holds a decimal number, pandas gives
    it the dtype float64 and [process_portfolio] computes in binary64. This
    module embeds lines 78-168 for frames all of whose numeric columns are
    float64; a missing strike is NaN. [Series.sum] is taken as the
    left-to-right sum, which is what NumPy does for fewer than eight rows.
    The [while] loop is run with fuel, and a run that uses it up is
    reported as such. *)
Module F64.
Import PrimFloat.
#[local] Set Warnings "-inexact-float".

Record Row : Type := mkRow {
  Instrument : string;
  Position : float;
  Strike : float;
  Market_price : float
}.

Definition DataFrame : Type := list Row.

Record SyntheticCall : Type := mkSC {
  sc_Type : EntryType;
  sc_Strike : float;
  sc_Position : float;
  sc_Value_per_Unit : float;
  sc_Total_Value : float;
  sc_Created_From : Source * float
}.

Record LogEntry : Type := mkLog {
  log_Step : Z;
  log_Action : Action;
  log_Source : Source;
  log_Amount : float;
  log_Put_Strike : float;
  log_Put_Price : float;
  log_Synthetic_Value : option float
}.

Record Alloc : Type := mkAlloc {
  remaining_futures : float;
  remaining_cash : float;
  synthetic_calls : list SyntheticCall;
  transformation_log : list LogEntry
}.

Definition standardize_row (r : Row) : Row :=
  mkRow (normalize_name (Instrument r)) (Position r) (Strike r) (Market_price r).

Definition standardize (df : DataFrame) : DataFrame := map standardize_row df.

Definition is_futures (r : Row) : bool := String.eqb (Instrument r) "futures".
Definition is_cash (r : Row) : bool := String.eqb (Instrument r) "cash".
Definition is_put (r : Row) : bool := PyStr.contains_nocase "put" (Instrument r).

(** The sum of a list of numbers, added from left to right. *)
Definition sum_floats (l : list float) : float :=
  fold_left (fun acc x => acc + x)%float l 0%float.

(** [frame['Position'].sum()], and 0 on an empty frame. *)
Definition sum_Position (frame : DataFrame) : float :=
  sum_floats (map Position frame).

(** [pd.isna]. *)
Definition isna (k : float) : bool := is_nan k.

Fixpoint insert_desc (r : Row) (l : list Row) : list Row :=
  match l with
  | [] => [r]
  | h :: t =>
      if (Strike r <? Strike h)%float then h :: insert_desc r t
      else r :: h :: t
  end.

Definition sort_desc (l : list Row) : list Row := fold_right insert_desc [] l.

Definition sort_values_Strike_desc (frame : DataFrame) : DataFrame :=
  sort_desc (filter (fun r => negb (isna (Strike r))) frame)
  ++ filter (fun r => isna (Strike r)) frame.

Definition same_value (a b : float) : bool :=
  (a =? b)%float || (isna a && isna b).

Fixpoint unique (l : list float) : list float :=
  match l with
  | [] => []
  | x :: t => x :: filter (fun y => negb (same_value x y)) (unique t)
  end.

(** Python's [min(a, b)]: [a], unless [b < a]. *)
Definition py_min (a b : float) : float := if (b <? a)%float then b else a.

Definition loop_cond (puts_to_process : float) (st : Alloc) : bool :=
  (0 <? puts_to_process)%float
  && ((0 <? remaining_futures st)%float || (0 <? remaining_cash st)%float).

Definition loop_body (underlying_price strike put_market_price : float)
    (puts_to_process : float) (st : Alloc) : float * Alloc :=
  let '(process_amount, remaining_futures', remaining_cash', source) :=
    if (0 <? remaining_futures st)%float then
      let process_amount := py_min puts_to_process (remaining_futures st) in
      (process_amount, (remaining_futures st - process_amount)%float,
       remaining_cash st, Futures)
    else
      let process_amount := py_min puts_to_process (remaining_cash st) in
      (process_amount, remaining_futures st,
       (remaining_cash st - process_amount)%float, Cash) in
  let puts_to_process' := (puts_to_process - process_amount)%float in
  let synthetic_value :=
    (put_market_price + (underlying_price - strike))%float in
  (puts_to_process',
   mkAlloc remaining_futures' remaining_cash'
     (synthetic_calls st ++
        [mkSC Synthetic_Call strike process_amount synthetic_value
              (process_amount * synthetic_value)%float (source, strike)])
     (transformation_log st ++
        [mkLog (Z.of_nat (List.length (transformation_log st)) + 1)
               Create_Synthetic_Call source process_amount strike
               put_market_price (Some synthetic_value)])).

(** The [while] loop, for at most [fuel] passes. *)
Fixpoint while_loop (fuel : nat)
    (underlying_price strike put_market_price : float)
    (puts_to_process : float) (st : Alloc) : option (float * Alloc) :=
  if loop_cond puts_to_process st then
    match fuel with
    | O => None
    | S fuel' =>
        let s := loop_body underlying_price strike put_market_price
                           puts_to_process st in
        while_loop fuel' underlying_price strike put_market_price
                   (fst s) (snd s)
    end
  else Some (puts_to_process, st).

Definition log_unmatched (strike put_market_price puts_to_process : float)
    (st : Alloc) : Alloc :=
  mkAlloc (remaining_futures st) (remaining_cash st) (synthetic_calls st)
    (transformation_log st ++
       [mkLog (Z.of_nat (List.length (transformation_log st)) + 1)
              Unmatched_Puts Puts puts_to_process strike
              put_market_price None]).

Definition process_put_row (fuel : nat) (underlying_price strike : float)
    (st : option Alloc) (put_row : Row) : option Alloc :=
  match st with
  | None => None
  | Some st =>
      match while_loop fuel underlying_price strike (Market_price put_row)
                       (Position put_row) st with
      | None => None
      | Some (puts_to_process', st') =>
          if (0 <? puts_to_process')%float then
            Some (log_unmatched strike (Market_price put_row)
                                puts_to_process' st')
          else Some st'
      end
  end.

Definition process_strike (fuel : nat) (underlying_price : float)
    (puts_sorted : DataFrame) (st : option Alloc) (strike : float)
    : option Alloc :=
  if isna strike then st
  else
    let puts_at_strike :=
      filter (fun r => (Strike r =? strike)%float) puts_sorted in
    fold_left (process_put_row fuel underlying_price strike) puts_at_strike st.

Definition allocate (fuel : nat) (underlying_price : float)
    (puts_sorted : DataFrame) (total_futures total_cash : float)
    : option Alloc :=
  fold_left (process_strike fuel underlying_price puts_sorted)
            (unique (map Strike puts_sorted))
            (Some (mkAlloc total_futures total_cash [] [])).

Record Run : Type := mkRun {
  underlying_price : float;
  total_futures : float;
  total_cash : float;
  allocation : Alloc
}.

Inductive Outcome : Type :=
| Completed (r : Run)
| No_underlying_price
| Out_of_fuel.

Definition get_underlying_price (futures cash : DataFrame) : option float :=
  match futures with
  | r :: _ => Some (Market_price r)
  | [] =>
      match cash with
      | r :: _ => Some (Market_price r)
      | [] => None
      end
  end.

(** Lines 78-168 of [process_portfolio] on a float64 frame. *)
Definition run (fuel : nat) (df : DataFrame) : Outcome :=
  let df := standardize df in
  let futures := filter is_futures df in
  let cash := filter is_cash df in
  let puts := filter is_put df in
  match get_underlying_price futures cash with
  | None => No_underlying_price
  | Some underlying_price =>
      let total_futures := sum_Position futures in
      let total_cash := sum_Position cash in
      let puts_sorted := sort_values_Strike_desc puts in
      match allocate fuel underlying_price puts_sorted
                     total_futures total_cash with
      | None => Out_of_fuel
      | Some st => Completed (mkRun underlying_price total_futures total_cash st)
      end
  end.

(** *** The exact value of a binary64 number *)

(** A finite binary64 number is [m * 2 ^ e] for integers [m] and [e]. *)
Definition exact (f : float) : option (Z * Z) :=
  match FloatOps.Prim2SF f with
  | SpecFloat.S754_zero _ => Some (0, 0)
  | SpecFloat.S754_finite s m e =>
      Some (if s then Z.neg m else Z.pos m, e)
  | _ => None
  end.

(** [m * 2 ^ e] brought to the exponent [e0 <= e]. *)
Definition at_exponent (e0 : Z) (d : Z * Z) : Z :=
  fst d * 2 ^ (snd d - e0).

Definition dyadic_eqb (a b : Z * Z) : bool :=
  let e0 := Z.min (snd a) (snd b) in
  at_exponent e0 a =? at_exponent e0 b.

Definition dyadic_add (a b : Z * Z) : Z * Z :=
  let e0 := Z.min (snd a) (snd b) in
  (at_exponent e0 a + at_exponent e0 b, e0).

Definition dyadic_mul (a b : Z * Z) : Z * Z :=
  (fst a * fst b, snd a + snd b).

(** The exact sum of a list of finite numbers. *)
Fixpoint exact_sum (l : list float) : option (Z * Z) :=
  match l with
  | [] => Some (0, 0)
  | x :: t =>
      match exact x, exact_sum t with
      | Some a, Some b => Some (dyadic_add a b)
      | _, _ => None
      end
  end.

(** Stock-side conservation, read on the exact values of the numbers the
    run holds at its end. *)
Definition conserved (r : Run) : bool :=
  match exact_sum (map sc_Position (synthetic_calls (allocation r))
                   ++ [remaining_futures (allocation r);
                       remaining_cash (allocation r)]),
        exact_sum [total_futures r; total_cash r] with
  | Some a, Some b => dyadic_eqb a b
  | _, _ => false
  end.

(** [Total Value = Position * Value per Unit], read on exact values. *)
Definition total_is_product (sc : SyntheticCall) : bool :=
  match exact (sc_Total_Value sc), exact (sc_Position sc),
        exact (sc_Value_per_Unit sc) with
  | Some t, Some q, Some v => dyadic_eqb t (dyadic_mul q v)
  | _, _, _ => false
  end.

(** A futures position of 100.4 and two puts of 20.1 and 80.3. *)
Definition decimal_frame : DataFrame :=
  [ mkRow "Futures" 100.4 nan 1191;
    mkRow "Puts" 20.1 1240 60;
    mkRow "Puts" 80.3 1230 65 ].

End F64.


(** ** Frames on which the code's arithmetic is exact *)

(** Quantities are non-negative integers whose total is at most [2 ^ 53]:
    every sum, minimum and difference of quantities that the run forms is
    then an integer of magnitude at most [2 ^ 53], which int64 and float64
    both compute without wrap-around or rounding. *)
Definition exact_quantities (df : DataFrame) : Prop :=
  Forall (fun r => 0 <= Position r) df /\ sum_Position df <= 2 ^ 53.

(** The largest magnitude of a market price or strike of the frame. *)
Definition price_bound (df : DataFrame) : Z :=
  fold_right
    (fun r m =>
       Z.max m (Z.max (Z.abs (Market_price r))
                      (match Strike r with Some k => Z.abs k | None => 0 end)))
    0 df.

(** Moreover every value [put_price + (underlying_price - strike)] and
    every product of a quantity with a price or with such a value has
    magnitude at most [2 ^ 53]. *)
Definition exact_frame (df : DataFrame) : Prop :=
  exact_quantities df
  /\ 3 * price_bound df <= 2 ^ 53
  /\ 3 * price_bound df * sum_Position df <= 2 ^ 53.


(** The condition under which [round(2)] (main, lines 356-357), which
    multiplies by 100, rounds to an integer and divides by 100, returns the
    values of the Total Value column unchanged, and the column sums without
    rounding. *)
Definition exact_display (final_portfolio_df : list PortfolioEntry) : Prop :=
  final_portfolio_df <> []
  /\ 100 * sumZ (map (fun e => Z.abs (fp_Total_Value e)) final_portfolio_df)
     <= 2 ^ 53.

(** Balances that int64 and float64 hold exactly. *)
Definition exact_ledger (st : Alloc) : Prop :=
  Z.abs (remaining_futures st) <= 2 ^ 53
  /\ Z.abs (remaining_cash st) <= 2 ^ 53.


(** ** The put lots in the order in which the loops visit them *)




(** * Properties of the loop *)

Lemma while_loop_eq u k p ptp st :
  while_loop u k p ptp st =
  if loop_cond ptp st
  then while_loop u k p (fst (loop_body u k p ptp st))
                  (snd (loop_body u k p ptp st))
  else (ptp, st).
Proof.
  funelim (while_loop u k p ptp st);
    match goal with H : loop_cond _ _ = _ |- _ => rewrite H end; reflexivity.
Qed.

Lemma loop_body_futures u k p ptp st :
  0 < remaining_futures st ->
  loop_body u k p ptp st =
  (ptp - Z.min ptp (remaining_futures st),
   mkAlloc (remaining_futures st - Z.min ptp (remaining_futures st))
     (remaining_cash st)
     (synthetic_calls st ++
        [mkSC Synthetic_Call k (Z.min ptp (remaining_futures st))
              (synthetic_value_of p u k)
              (Z.min ptp (remaining_futures st) * synthetic_value_of p u k)
              (Futures, k)])
     (transformation_log st ++
        [mkLog (Z.of_nat (List.length (transformation_log st)) + 1)
               Create_Synthetic_Call Futures
               (Z.min ptp (remaining_futures st)) k p
               (Some (synthetic_value_of p u k))])).
Proof.
  intros H. unfold loop_body.
  destruct (Z.ltb_spec 0 (remaining_futures st)); [reflexivity | lia].
Qed.

Lemma loop_body_cash u k p ptp st :
  remaining_futures st <= 0 ->
  loop_body u k p ptp st =
  (ptp - Z.min ptp (remaining_cash st),
   mkAlloc (remaining_futures st)
     (remaining_cash st - Z.min ptp (remaining_cash st))
     (synthetic_calls st ++
        [mkSC Synthetic_Call k (Z.min ptp (remaining_cash st))
              (synthetic_value_of p u k)
              (Z.min ptp (remaining_cash st) * synthetic_value_of p u k)
              (Cash, k)])
     (transformation_log st ++
        [mkLog (Z.of_nat (List.length (transformation_log st)) + 1)
               Create_Synthetic_Call Cash
               (Z.min ptp (remaining_cash st)) k p
               (Some (synthetic_value_of p u k))])).
Proof.
  intros H. unfold loop_body.
  destruct (Z.ltb_spec 0 (remaining_futures st)); [lia | reflexivity].
Qed.

(** What one pass does, whichever branch it takes. *)
Lemma loop_body_shape u k p ptp st :
  loop_cond ptp st = true ->
  exists amount source,
    0 < amount /\ amount <= ptp /\
    ((source = Futures /\ 0 < remaining_futures st /\
      amount <= remaining_futures st /\
      (amount = ptp \/ amount = remaining_futures st))
     \/
     (source = Cash /\ remaining_futures st <= 0 /\
      amount <= remaining_cash st /\
      (amount = ptp \/ amount = remaining_cash st))) /\
    loop_body u k p ptp st =
    (ptp - amount,
     mkAlloc
       (if Source_eqb source Futures then remaining_futures st - amount
        else remaining_futures st)
       (if Source_eqb source Cash then remaining_cash st - amount
        else remaining_cash st)
       (synthetic_calls st ++ [new_call u k p amount source])
       (transformation_log st ++ [new_step u k p amount source st])).
Proof.
  unfold loop_cond. intros H.
  apply andb_true_iff in H. destruct H as [Hp Hs].
  apply Z.ltb_lt in Hp. apply orb_true_iff in Hs.
  destruct (Z_lt_le_dec 0 (remaining_futures st)) as [Hf | Hf].
  - exists (Z.min ptp (remaining_futures st)), Futures.
    rewrite loop_body_futures by assumption. simpl.
    split; [lia |]. split; [lia |]. split; [| reflexivity].
    left. repeat split; lia.
  - assert (Hc : 0 < remaining_cash st).
    { destruct Hs as [Hs | Hs]; apply Z.ltb_lt in Hs; lia. }
    exists (Z.min ptp (remaining_cash st)), Cash.
    rewrite loop_body_cash by assumption. simpl.
    split; [lia |]. split; [lia |]. split; [| reflexivity].
    right. repeat split; lia.
Qed.

(** Induction over the passes of the loop: a property of the loop variables
    that every pass preserves holds when the loop is left, and the guard is
    then false. *)
Lemma while_loop_inv (P : Z -> Alloc -> Prop) u k p :
  (forall ptp st, loop_cond ptp st = true -> P ptp st ->
     P (fst (loop_body u k p ptp st)) (snd (loop_body u k p ptp st))) ->
  forall ptp st, P ptp st ->
    P (fst (while_loop u k p ptp st)) (snd (while_loop u k p ptp st)) /\
    loop_cond (fst (while_loop u k p ptp st))
              (snd (while_loop u k p ptp st)) = false.
Proof.
  intros Hstep ptp st.
  remember (loop_measure ptp st) as n eqn:Hn.
  revert ptp st Hn.
  induction n as [n IH] using lt_wf_ind.
  intros ptp st Hn HP.
  rewrite while_loop_eq.
  destruct (loop_cond ptp st) eqn:Hc.
  - apply (IH (loop_measure (fst (loop_body u k p ptp st))
                            (snd (loop_body u k p ptp st)))).
    + subst n. apply loop_body_decreases. exact Hc.
    + reflexivity.
    + apply Hstep; assumption.
  - simpl. split; assumption.
Qed.

(** ** Invariants of the allocation *)

Section RowInvariant.
Variables (u k p : Z) (P : Alloc -> Prop).

Hypothesis P_pass : forall ptp st,
  loop_cond ptp st = true -> P st -> P (snd (loop_body u k p ptp st)).
Hypothesis P_unmatched : forall ptp st,
  0 < ptp -> P st -> P (log_unmatched k p ptp st).

Lemma while_loop_preserves ptp st :
  P st -> P (snd (while_loop u k p ptp st)).
Proof.
  intros H.
  apply (while_loop_inv (fun _ s => P s) u k p); [| exact H].
  intros; apply P_pass; assumption.
Qed.

Lemma process_put_row_preserves st row :
  Market_price row = p -> P st -> P (process_put_row u k st row).
Proof.
  intros Hp H. unfold process_put_row. rewrite Hp.
  pose proof (while_loop_preserves (Position row) H) as Hw.
  destruct (while_loop u k p (Position row) st) as [ptp' st'].
  simpl in Hw.
  destruct (Z.ltb_spec 0 ptp'); [apply P_unmatched |]; assumption.
Qed.
End RowInvariant.

Section AllocInvariant.
Variables (u : Z) (ps : DataFrame) (P : Alloc -> Prop).

Hypothesis P_pass : forall row k ptp st,
  In row ps -> Strike row = Some k ->
  loop_cond ptp st = true -> P st ->
  P (snd (loop_body u k (Market_price row) ptp st)).
Hypothesis P_unmatched : forall row k ptp st,
  In row ps -> Strike row = Some k ->
  0 < ptp -> P st -> P (log_unmatched k (Market_price row) ptp st).

Lemma fold_rows_preserves k rows st :
  (forall row, In row rows -> In row ps /\ Strike row = Some k) ->
  P st -> P (fold_left (process_put_row u k) rows st).
Proof.
  revert st. induction rows as [| row rows IH]; intros st Hin H; simpl.
  - exact H.
  - apply IH; [intros r Hr; apply Hin; right; exact Hr |].
    destruct (Hin row (or_introl eq_refl)) as [Hps Hk].
    apply process_put_row_preserves with (p := Market_price row);
      [ intros; apply P_pass; assumption
      | intros; apply P_unmatched; assumption
      | reflexivity | exact H ].
Qed.

Lemma strike_eqb_Some r k :
  strike_eqb (Strike r) (Some k) = true <-> Strike r = Some k.
Proof.
  unfold strike_eqb. destruct (Strike r) as [x |].
  - rewrite Z.eqb_eq. split; [intros -> | intros [= ->]]; reflexivity.
  - split; discriminate.
Qed.

Lemma process_strike_preserves strike st :
  P st -> P (process_strike u ps st strike).
Proof.
  intros H. destruct strike as [k |]; simpl; [| exact H].
  apply fold_rows_preserves; [| exact H].
  intros row Hr. apply filter_In in Hr. destruct Hr as [Hin Hk].
  split; [exact Hin | apply strike_eqb_Some; exact Hk].
Qed.

Lemma fold_strikes_preserves strikes st :
  P st -> P (fold_left (process_strike u ps) strikes st).
Proof.
  revert st. induction strikes as [| s strikes IH]; intros st H; simpl.
  - exact H.
  - apply IH. apply process_strike_preserves. exact H.
Qed.

Lemma allocate_preserves total_futures total_cash :
  P (mkAlloc total_futures total_cash [] []) ->
  P (allocate u ps total_futures total_cash).
Proof. apply fold_strikes_preserves. Qed.
End AllocInvariant.

(** ** Stock-side conservation *)

Lemma sumZ_app l1 l2 : sumZ (l1 ++ l2) = sumZ l1 + sumZ l2.
Proof.
  unfold sumZ. induction l1 as [| x l1 IH]; simpl; [reflexivity | lia].
Qed.

Lemma conserved_pass tf tc u k p ptp st :
  loop_cond ptp st = true -> conserved tf tc st ->
  conserved tf tc (snd (loop_body u k p ptp st)).
Proof.
  intros Hc [Hsum [Hf Hcash]].
  destruct (loop_body_shape u k p ptp st Hc)
    as (amount & source & Hpos & Hle & Hbr & ->).
  unfold conserved. simpl.
  rewrite map_app, sumZ_app. simpl.
  destruct Hbr as [(-> & ? & ? & ?) | (-> & ? & ? & ?)]; simpl; lia.
Qed.

Lemma allocate_conserved u ps tf tc : conserved tf tc (allocate u ps tf tc).
Proof.
  apply allocate_preserves.
  - intros. apply conserved_pass; assumption.
  - intros row k ptp st _ _ _ H. exact H.
  - unfold conserved. simpl. lia.
Qed.

Lemma sample_exact_frame : exact_frame load_sample_data.
Proof.
  unfold exact_frame, exact_quantities.
  split; [split |].
  - repeat constructor; vm_compute; discriminate.
  - vm_compute; discriminate.
  - split; vm_compute; discriminate.
Defined.

Lemma sample_exact_quantities : exact_quantities load_sample_data.
Proof. apply sample_exact_frame. Defined.

(** C1, as the code has it. Stock-side conservation for integer
    quantities: for every input frame whose quantities are non-negative
    integers with a total of at most [2 ^ 53], so that the int64 and
    float64 arithmetic of the code is exact, and on which the run
    completes, the quantities of the synthetic calls created by the
    allocation plus [remaining_futures] plus [remaining_cash] equal
    [total_futures + total_cash], the summed Futures and Cash input
    quantities, and neither remaining balance exceeds its original total. *)
Theorem stock_conservation (df : DataFrame) (r : Run) :
  run (standardize df) = Some r ->
  exact_quantities df ->
  total_futures r = sum_Position (filter is_futures (standardize df)) /\
  total_cash r = sum_Position (filter is_cash (standardize df)) /\
  sumZ (map sc_Position (synthetic_calls (allocation r)))
    + remaining_futures (allocation r) + remaining_cash (allocation r)
  = total_futures r + total_cash r /\
  remaining_futures (allocation r) <= total_futures r /\
  remaining_cash (allocation r) <= total_cash r.
Proof.
  unfold run. intros H _.
  destruct (get_underlying_price _ _) as [u |]; [| discriminate].
  injection H as <-. simpl.
  split; [reflexivity |]. split; [reflexivity |].
  apply allocate_conserved.
Qed.

Lemma stock_conservation_witness :
  exists r, run (standardize load_sample_data) = Some r /\
    sumZ (map sc_Position (synthetic_calls (allocation r)))
      + remaining_futures (allocation r) + remaining_cash (allocation r)
    = 300000.
Proof.
  eexists. split; [vm_compute; reflexivity |].
  match goal with
  | |- context [allocation ?r] =>
      destruct (@stock_conservation load_sample_data r
                  ltac:(vm_compute; reflexivity) sample_exact_quantities)
        as (_ & _ & H & _)
  end.
  exact H.
Defined.

(** C1, as stated, fails on decimal quantities. On a futures position of
    100.4 and puts of 20.1 and 80.3 the run, computing in binary64, draws
    20.1 and 80.3 and is left with a futures balance of [2 ^ -46], which is
    positive: the exact sum of the synthetic quantities and the remaining
    balances is not the total of 100.4, and neither is their sum in
    binary64. *)
Lemma decimal_conservation_fails :
  match F64.run 3 F64.decimal_frame with
  | F64.Completed r =>
      F64.conserved r = false
      /\ PrimFloat.ltb PrimFloat.zero
                       (F64.remaining_futures (F64.allocation r)) = true
      /\ PrimFloat.eqb
           (PrimFloat.add
              (PrimFloat.add
                 (F64.sum_floats
                    (map F64.sc_Position
                         (F64.synthetic_calls (F64.allocation r))))
                 (F64.remaining_futures (F64.allocation r)))
              (F64.remaining_cash (F64.allocation r)))
           (PrimFloat.add (F64.total_futures r) (F64.total_cash r)) = false
  | _ => False
  end.
Proof. vm_compute. repeat split. Qed.

(** ** The inner loop makes at most two passes *)

(** Every pass exhausts the put quantity left or one of the two balances. *)
Lemma pass_exhausts u k p ptp st :
  loop_cond ptp st = true ->
  fst (loop_body u k p ptp st) = 0
  \/ remaining_futures (snd (loop_body u k p ptp st)) = 0
  \/ remaining_cash (snd (loop_body u k p ptp st)) = 0.
Proof.
  intros Hc.
  destruct (loop_body_shape u k p ptp st Hc)
    as (amount & source & Hpos & Hle & Hbr & ->).
  simpl.
  destruct Hbr as [(-> & ? & ? & [? | ?]) | (-> & ? & ? & [? | ?])];
    simpl; lia.
Qed.

(** The three ways the loop can run: no pass; one pass; a pass that draws
    from Futures followed by a pass that draws from Cash. *)
Lemma while_loop_trace u k p ptp st :
  (while_loop u k p ptp st = (ptp, st) /\ loop_cond ptp st = false)
  \/
  (exists a src,
     loop_cond ptp st = true /\
     while_loop u k p ptp st = loop_body u k p ptp st /\
     transformation_log (snd (loop_body u k p ptp st)) =
       transformation_log st ++ [new_step u k p a src st] /\
     (src = Futures \/ src = Cash))
  \/
  (exists a1 a2 s1,
     loop_cond ptp st = true /\
     loop_body u k p ptp st = s1 /\
     loop_cond (fst s1) (snd s1) = true /\
     while_loop u k p ptp st = loop_body u k p (fst s1) (snd s1) /\
     transformation_log (snd (loop_body u k p (fst s1) (snd s1))) =
       transformation_log st
       ++ [new_step u k p a1 Futures st; new_step u k p a2 Cash (snd s1)]).
Proof.
  rewrite while_loop_eq.
  destruct (loop_cond ptp st) eqn:Hc; [| left; split; reflexivity].
  right.
  destruct (loop_body_shape u k p ptp st Hc)
    as (a1 & src1 & Hpos1 & Hle1 & Hbr1 & E1).
  rewrite while_loop_eq.
  destruct (loop_cond (fst (loop_body u k p ptp st))
                      (snd (loop_body u k p ptp st))) eqn:Hc1.
  - right.
    destruct (loop_body_shape u k p _ _ Hc1)
      as (a2 & src2 & Hpos2 & Hle2 & Hbr2 & E2).
    assert (Hsrc : src1 = Futures /\ src2 = Cash /\ a1 = remaining_futures st
                   /\ (a2 = ptp - a1 \/ a2 = remaining_cash st)).
    { rewrite E1 in Hbr2, Hle2. simpl in Hbr2, Hle2.
      destruct Hbr1 as [(-> & ? & ? & ?) | (-> & ? & ? & ?)];
        simpl in Hbr2;
        destruct Hbr2 as [(-> & ? & ? & ?) | (-> & ? & ? & ?)];
        try lia; repeat split; try reflexivity; lia. }
    destruct Hsrc as (-> & -> & Ha1 & Ha2).
    exists a1, a2, (loop_body u k p ptp st).
    split; [reflexivity |]. split; [reflexivity |].
    split; [exact Hc1 |].
    assert (Hend :
      loop_cond (fst (loop_body u k p (fst (loop_body u k p ptp st))
                                      (snd (loop_body u k p ptp st))))
                (snd (loop_body u k p (fst (loop_body u k p ptp st))
                                      (snd (loop_body u k p ptp st))))
      = false).
    { rewrite E2. rewrite E1. unfold loop_cond. simpl.
      destruct Ha2 as [-> | ->].
      - replace (ptp - a1 - (ptp - a1)) with 0 by lia. reflexivity.
      - rewrite Ha1. rewrite !Z.sub_diag. simpl. apply andb_false_r. }
    split.
    + rewrite while_loop_eq. rewrite Hend. symmetry. apply surjective_pairing.
    + rewrite E2. simpl. rewrite E1. simpl.
      rewrite <- app_assoc. reflexivity.
  - left. exists a1, src1.
    split; [reflexivity |].
    split; [symmetry; apply surjective_pairing |].
    split; [rewrite E1; reflexivity |].
    destruct Hbr1 as [(-> & _) | (-> & _)]; [left | right]; reflexivity.
Qed.

Lemma process_put_row_log u k st row :
  exists rest,
    transformation_log (process_put_row u k st row) =
      transformation_log
        (snd (while_loop u k (Market_price row) (Position row) st)) ++ rest
    /\ Forall (fun e => log_Action e = Unmatched_Puts) rest.
Proof.
  unfold process_put_row.
  destruct (while_loop u k (Market_price row) (Position row) st)
    as [ptp' st'].
  destruct (0 <? ptp').
  - eexists. split; [reflexivity |]. constructor; [reflexivity | constructor].
  - exists []. split; [symmetry; apply app_nil_r | constructor].
Qed.

(** C10. For every put lot the inner allocation loop terminates after at
    most two passes, and so records at most two Create Synthetic Call steps
    for the lot: at most one drawn from Futures and at most one drawn from
    Cash. The only other record the lot can add to the log is its Unmatched
    Puts step. *)
Theorem inner_loop_at_most_two_steps (u k : Z) (st : Alloc) (row : Row) :
  exists (n : nat) (steps rest : list LogEntry),
    (n <= 2)%nat /\
    while_loop u k (Market_price row) (Position row) st =
      iterate_body n u k (Market_price row) (Position row, st) /\
    loop_cond (fst (while_loop u k (Market_price row) (Position row) st))
              (snd (while_loop u k (Market_price row) (Position row) st))
      = false /\
    transformation_log (process_put_row u k st row) =
      transformation_log st ++ steps ++ rest /\
    List.length steps = n /\
    Forall (fun e => log_Action e = Create_Synthetic_Call
                     /\ log_Put_Strike e = k) steps /\
    (List.length (filter (has_source Futures) steps) <= 1)%nat /\
    (List.length (filter (has_source Cash) steps) <= 1)%nat /\
    Forall (fun e => log_Action e = Unmatched_Puts) rest.
Proof.
  destruct (process_put_row_log u k st row) as (rest & Hlog & Hrest).
  pose proof (while_loop_inv (fun _ _ => True) u k (Market_price row)
                (fun _ _ _ _ => I) (Position row) st I) as [_ Hend].
  destruct (while_loop_trace u k (Market_price row) (Position row) st)
    as [[E Hc] | [(a & src & Hc & E & El & Hs) | (a1 & a2 & s1 & Hc & Es & Hc1 & E & El)]].
  - exists 0%nat, [], rest. rewrite Hlog, E. simpl.
    repeat split; try assumption; try constructor; try lia.
  - exists 1%nat, [new_step u k (Market_price row) a src st], rest.
    rewrite Hlog, E, El. simpl.
    split; [lia |]. split; [reflexivity |].
    split; [rewrite E in Hend; exact Hend |].
    split; [rewrite <- app_assoc; reflexivity |].
    split; [reflexivity |].
    split; [constructor; [split; reflexivity | constructor] |].
    destruct Hs as [-> | ->]; simpl; repeat split; try lia; assumption.
  - exists 2%nat,
      [new_step u k (Market_price row) a1 Futures st;
       new_step u k (Market_price row) a2 Cash (snd s1)], rest.
    rewrite Hlog, E, El. simpl. rewrite Es.
    split; [lia |]. split; [reflexivity |].
    split; [rewrite E in Hend; exact Hend |].
    split; [rewrite <- app_assoc; reflexivity |].
    split; [reflexivity |].
    split; [repeat constructor |].
    simpl. repeat split; try lia; assumption.
Qed.

(** ** Source priority *)

Lemma snoc_split {A : Type} (l pre post : list A) (x e : A) :
  l ++ [x] = pre ++ e :: post ->
  (post = [] /\ pre = l /\ e = x)
  \/ (exists post', post = post' ++ [x] /\ l = pre ++ e :: post').
Proof.
  intros H.
  destruct post as [| y post0] eqn:Epost.
  - apply app_inj_tail in H. destruct H as [-> ->]. left. repeat split.
  - destruct (@exists_last _ (y :: post0) ltac:(discriminate))
      as (post' & a & Hp).
    rewrite Hp in H.
    change (pre ++ e :: post' ++ [a]) with (pre ++ (e :: post') ++ [a]) in H.
    rewrite app_assoc in H.
    apply app_inj_tail in H. destruct H as [-> ->].
    right. exists post'. split; [exact Hp | reflexivity].
Qed.

Lemma futures_drawn_snoc log e :
  futures_drawn (log ++ [e]) =
  futures_drawn log
  + (if is_create e && has_source Futures e then log_Amount e else 0).
Proof.
  unfold futures_drawn. rewrite filter_app, map_app, sumZ_app. simpl.
  destruct (is_create e && has_source Futures e); simpl; lia.
Qed.

Lemma priority_kept_pass tf u k p ptp st :
  loop_cond ptp st = true -> priority_kept tf st ->
  priority_kept tf (snd (loop_body u k p ptp st)).
Proof.
  intros Hc (Hbal & Hnn & Hcash).
  destruct (loop_body_shape u k p ptp st Hc)
    as (amount & source & Hpos & Hle & Hbr & ->).
  unfold priority_kept, futures_balance in *. simpl.
  rewrite futures_drawn_snoc. simpl.
  split; [| split].
  - destruct Hbr as [(-> & _) | (-> & _)]; simpl; lia.
  - destruct Hbr as [(-> & ? & ? & ?) | (-> & ? & ? & ?)]; simpl; lia.
  - intros pre e post Hsplit Ha Hs.
    apply snoc_split in Hsplit.
    destruct Hsplit as [(_ & -> & ->) | (post' & _ & Hl)].
    + simpl in Hs. subst source.
      destruct Hbr as [(Habs & _) | (_ & Hrf & _)]; [discriminate |].
      split; [lia |]. intros Htf. specialize (Hnn Htf). lia.
    + apply (Hcash pre e post'); assumption.
Qed.

Lemma priority_kept_unmatched tf k p ptp st :
  priority_kept tf st -> priority_kept tf (log_unmatched k p ptp st).
Proof.
  intros (Hbal & Hnn & Hcash).
  unfold priority_kept, futures_balance in *. simpl.
  rewrite futures_drawn_snoc. simpl.
  split; [lia |]. split; [exact Hnn |].
  intros pre e post Hsplit Ha Hs.
  apply snoc_split in Hsplit.
  destruct Hsplit as [(_ & -> & ->) | (post' & _ & Hl)].
  - discriminate.
  - apply (Hcash pre e post'); assumption.
Qed.

Lemma allocate_priority_kept u ps tf tc :
  priority_kept tf (allocate u ps tf tc).
Proof.
  apply allocate_preserves.
  - intros. apply priority_kept_pass; assumption.
  - intros. apply priority_kept_unmatched; assumption.
  - unfold priority_kept, futures_balance, futures_drawn. simpl.
    split; [lia |]. split; [intros H; exact H |].
    intros [| ? ?] e post H; discriminate.
Qed.

(** C5. Source priority: in every run, whenever the transformation log
    splits as [pre ++ e :: post] with [e] a Create Synthetic Call step whose
    source is Cash, the futures balance at the moment [e] is taken (the
    total futures less what the steps of [pre] drew from Futures) is not
    positive; and when the total futures quantity is not negative that
    balance is exactly 0. *)
Theorem source_priority (df : DataFrame) (r : Run)
    (pre post : list LogEntry) (e : LogEntry) :
  run (standardize df) = Some r ->
  transformation_log (allocation r) = pre ++ e :: post ->
  log_Action e = Create_Synthetic_Call ->
  log_Source e = Cash ->
  futures_balance (total_futures r) pre <= 0
  /\ (0 <= total_futures r -> futures_balance (total_futures r) pre = 0).
Proof.
  unfold run. intros H.
  destruct (get_underlying_price _ _) as [u |]; [| discriminate].
  injection H as <-. simpl.
  apply allocate_priority_kept.
Qed.

(** The balance replayed over the whole log is the final
    [remaining_futures]. *)
Lemma futures_balance_final (df : DataFrame) (r : Run) :
  run (standardize df) = Some r ->
  remaining_futures (allocation r)
  = futures_balance (total_futures r) (transformation_log (allocation r)).
Proof.
  unfold run. intros H.
  destruct (get_underlying_price _ _) as [u |]; [| discriminate].
  injection H as <-. simpl.
  apply allocate_priority_kept.
Qed.

Lemma source_priority_witness :
  exists r e1 e2,
    run (standardize two_source_frame) = Some r /\
    transformation_log (allocation r) = [e1] ++ e2 :: [] /\
    log_Action e2 = Create_Synthetic_Call /\
    log_Source e2 = Cash /\
    futures_balance (total_futures r) [e1] <= 0.
Proof.
  eexists. eexists. eexists.
  split; [vm_compute; reflexivity |].
  split; [vm_compute; reflexivity |].
  split; [reflexivity |].
  split; [reflexivity |].
  eapply (@source_priority two_source_frame _ _ [] _).
  - vm_compute; reflexivity.
  - vm_compute; reflexivity.
  - reflexivity.
  - reflexivity.
Defined.

(** ** Sorting keeps the rows *)

Lemma insert_desc_In r l x : In x (insert_desc r l) <-> x = r \/ In x l.
Proof.
  induction l as [| h t IH]; simpl.
  - split; [intros [<- | []]; left; reflexivity | intros [-> | []]; left; reflexivity].
  - destruct (strike_ltb (Strike r) (Strike h)); simpl.
    + rewrite IH. split; intros H; intuition (subst; auto).
    + split; intros H; intuition (subst; auto).
Qed.

Lemma sort_desc_In l x : In x (sort_desc l) <-> In x l.
Proof.
  induction l as [| h t IH]; simpl; [reflexivity |].
  rewrite insert_desc_In, IH. split; intros H; intuition (subst; auto).
Qed.

Lemma sort_values_In frame x :
  In x (sort_values_Strike_desc frame) <-> In x frame.
Proof.
  unfold sort_values_Strike_desc.
  rewrite in_app_iff, sort_desc_In, !filter_In.
  destruct (isna (Strike x)); simpl; split; intros H; intuition congruence.
Qed.

(** ** Valuation *)

Lemma allocate_valued u puts tf tc :
  valued u puts (allocate u (sort_values_Strike_desc puts) tf tc).
Proof.
  apply allocate_preserves.
  - intros row k ptp st Hin Hk Hc Hv.
    destruct (loop_body_shape u k (Market_price row) ptp st Hc)
      as (amount & source & _ & _ & _ & ->).
    unfold valued in *. simpl.
    rewrite filter_app. simpl.
    apply Forall2_app; [exact Hv |].
    constructor; [| constructor].
    unfold valued_by, synthetic_value_of. simpl.
    repeat split.
    exists row. split; [apply sort_values_In; exact Hin |].
    split; [exact Hk | reflexivity].
  - intros row k ptp st _ _ _ Hv.
    unfold valued in *. simpl.
    rewrite filter_app. simpl. rewrite app_nil_r. exact Hv.
  - constructor.
Qed.




(** ** Strike order *)

Lemma insert_desc_sorted r l :
  isna (Strike r) = false ->
  Forall (fun x => isna (Strike x) = false) l ->
  StronglySorted desc (map Strike l) ->
  StronglySorted desc (map Strike (insert_desc r l)).
Proof.
  intros Hr Hl Hs. induction l as [| h t IH]; simpl.
  - constructor; constructor.
  - simpl in Hs. inversion Hs as [| ? ? Hst Hall]; subst.
    inversion Hl as [| ? ? Hh Ht]; subst.
    destruct (Strike r) as [kr |] eqn:Er; [| discriminate].
    destruct (Strike h) as [kh |] eqn:Eh; [| discriminate].
    simpl. destruct (Z.ltb_spec kr kh) as [Hlt | Hge].
    + simpl. rewrite ?Eh. constructor.
      * apply IH; assumption.
      * apply Forall_forall. intros s Hin.
        apply in_map_iff in Hin. destruct Hin as (x & <- & Hx).
        apply insert_desc_In in Hx. destruct Hx as [-> | Hx].
        -- rewrite Er. intros a b [= <-] [= <-]. lia.
        -- rewrite Forall_forall in Hall. apply Hall.
           apply in_map. exact Hx.
    + simpl. rewrite ?Er, ?Eh. constructor.
      * exact Hs.
      * constructor.
        -- intros a b [= <-] [= <-]. exact Hge.
        -- rewrite Forall_forall in Hall |- *. intros s Hin.
           specialize (Hall s Hin).
           intros a b [= <-] Hb. specialize (Hall kh b eq_refl Hb). lia.
Qed.

Lemma sort_desc_sorted l :
  Forall (fun x => isna (Strike x) = false) l ->
  StronglySorted desc (map Strike (sort_desc l)).
Proof.
  induction 1 as [| r l Hr Hl IH]; simpl; [constructor |].
  apply insert_desc_sorted; [exact Hr | | exact IH].
  apply Forall_forall. intros x Hx. apply (proj1 (sort_desc_In _ _)) in Hx.
  rewrite Forall_forall in Hl. apply Hl. exact Hx.
Qed.

Lemma sorted_then_missing l1 l2 :
  StronglySorted desc l1 -> Forall (fun s => s = None) l2 ->
  StronglySorted desc (l1 ++ l2).
Proof.
  intros H1 H2. induction H1 as [| a l Hs IH Ha]; simpl.
  - induction H2 as [| s l2 -> _ IH2]; constructor; [exact IH2 |].
    apply Forall_forall. intros b _ x y [=].
  - constructor; [exact IH |].
    apply Forall_app. split; [exact Ha |].
    apply Forall_forall. intros b Hb.
    rewrite Forall_forall in H2. rewrite (H2 b Hb). intros x y _ [=].
Qed.

Lemma sort_values_sorted frame :
  StronglySorted desc (map Strike (sort_values_Strike_desc frame)).
Proof.
  unfold sort_values_Strike_desc. rewrite map_app.
  apply sorted_then_missing.
  - apply sort_desc_sorted. apply Forall_forall. intros x Hx.
    apply filter_In in Hx. destruct Hx as [_ Hx].
    apply negb_true_iff. exact Hx.
  - apply Forall_forall. intros s Hs.
    apply in_map_iff in Hs. destruct Hs as (x & <- & Hx).
    apply filter_In in Hx. destruct Hx as [_ Hx].
    destruct (Strike x); [discriminate | reflexivity].
Qed.

Lemma StronglySorted_filter {A : Type} (R : A -> A -> Prop) f l :
  StronglySorted R l -> StronglySorted R (filter f l).
Proof.
  induction 1 as [| a l Hs IH Ha]; simpl; [constructor |].
  destruct (f a); [| exact IH].
  constructor; [exact IH |].
  rewrite Forall_forall in Ha |- *. intros x Hx.
  apply filter_In in Hx. apply Ha. apply Hx.
Qed.

Lemma unique_In l x : In x (unique l) -> In x l.
Proof.
  revert x. induction l as [| a l IH]; intros x; simpl; [tauto |].
  intros [-> | Hx]; [left; reflexivity |].
  apply filter_In in Hx. right. apply IH. apply Hx.
Qed.

Lemma unique_sorted l : StronglySorted desc l -> StronglySorted desc (unique l).
Proof.
  induction 1 as [| a l Hs IH Ha]; simpl; [constructor |].
  constructor; [apply StronglySorted_filter; exact IH |].
  rewrite Forall_forall in Ha |- *. intros x Hx.
  apply filter_In in Hx. apply Ha. apply unique_In. apply Hx.
Qed.

Lemma StronglySorted_app {A : Type} (R : A -> A -> Prop) l1 l2 :
  StronglySorted R l1 -> StronglySorted R l2 ->
  (forall x y, In x l1 -> In y l2 -> R x y) ->
  StronglySorted R (l1 ++ l2).
Proof.
  intros H1 H2 H. induction H1 as [| a l Hs IH Ha]; simpl; [exact H2 |].
  constructor.
  - apply IH. intros x y Hx Hy. apply H; [right |]; assumption.
  - apply Forall_app. split; [exact Ha |].
    apply Forall_forall. intros y Hy. apply H; [left; reflexivity | exact Hy].
Qed.

Lemma constant_sorted k l :
  Forall (fun s => s = k) l -> StronglySorted Z.ge l.
Proof.
  induction 1 as [| s l -> Hl IH]; constructor; [exact IH |].
  rewrite Forall_forall in Hl |- *. intros y Hy. rewrite (Hl y Hy). lia.
Qed.

Lemma process_strike_block u ps st k :
  extends_with k st (process_strike u ps st (Some k)).
Proof.
  simpl.
  apply fold_rows_preserves
    with (ps := filter (fun r => strike_eqb (Strike r) (Some k)) ps).
  - intros row k' ptp s Hin Hk' Hc (block & Hlog & Hb).
    apply filter_In in Hin. destruct Hin as [_ Hin].
    apply strike_eqb_Some in Hin. rewrite Hin in Hk'. injection Hk' as <-.
    destruct (loop_body_shape u k (Market_price row) ptp s Hc)
      as (amount & source & _ & _ & _ & ->).
    exists (block ++ [new_step u k (Market_price row) amount source s]).
    simpl. rewrite Hlog, app_assoc. split; [reflexivity |].
    apply Forall_app. split; [exact Hb | repeat constructor].
  - intros row k' ptp s Hin Hk' _ (block & Hlog & Hb).
    apply filter_In in Hin. destruct Hin as [_ Hin].
    apply strike_eqb_Some in Hin. rewrite Hin in Hk'. injection Hk' as <-.
    eexists. simpl. rewrite Hlog, <- app_assoc. split; [reflexivity |].
    apply Forall_app. split; [exact Hb | repeat constructor].
  - intros row Hrow. split; [exact Hrow |].
    apply filter_In in Hrow. apply strike_eqb_Some. apply Hrow.
  - exists []. split; [symmetry; apply app_nil_r | constructor].
Qed.

Lemma fold_strikes_sorted u ps strikes st :
  StronglySorted desc strikes ->
  StronglySorted Z.ge (map log_Put_Strike (transformation_log st)) ->
  (forall s k, In s (map log_Put_Strike (transformation_log st)) ->
               In (Some k) strikes -> k <= s) ->
  StronglySorted Z.ge
    (map log_Put_Strike
         (transformation_log (fold_left (process_strike u ps) strikes st))).
Proof.
  intros Hs. revert st.
  induction Hs as [| s0 strikes Hs IH Hall]; intros st Hlog Hbound; simpl.
  - exact Hlog.
  - destruct s0 as [k |].
    + destruct (process_strike_block u ps st k) as (block & Eb & Hb).
      apply IH.
      * rewrite Eb, map_app. apply StronglySorted_app.
        -- exact Hlog.
        -- apply constant_sorted with (k := k).
           apply Forall_forall. intros s Hin.
           apply in_map_iff in Hin. destruct Hin as (e & <- & He).
           rewrite Forall_forall in Hb. apply Hb. exact He.
        -- intros x y Hx Hy.
           apply in_map_iff in Hy. destruct Hy as (e & <- & He).
           rewrite Forall_forall in Hb. rewrite (Hb e He).
           specialize (Hbound x k Hx (or_introl eq_refl)). lia.
      * intros s k' Hin Hk'. rewrite Eb, map_app in Hin.
        apply in_app_or in Hin. destruct Hin as [Hin | Hin].
        -- apply (Hbound s k' Hin). right. exact Hk'.
        -- apply in_map_iff in Hin. destruct Hin as (e & <- & He).
           rewrite Forall_forall in Hb. rewrite (Hb e He).
           rewrite Forall_forall in Hall.
           apply (Hall (Some k') Hk' k k'); reflexivity.
    + apply IH; [exact Hlog |].
      intros s k' Hin Hk'. apply (Hbound s k' Hin). right. exact Hk'.
Qed.

Lemma map_filter_sorted (log : list LogEntry) f :
  StronglySorted Z.ge (map log_Put_Strike log) ->
  StronglySorted Z.ge (map log_Put_Strike (filter f log)).
Proof.
  induction log as [| e log IH]; simpl; intros H; [constructor |].
  inversion H as [| ? ? Hs Ha]; subst.
  destruct (f e); simpl; [| apply IH; exact Hs].
  constructor; [apply IH; exact Hs |].
  rewrite Forall_forall in Ha |- *. intros x Hx.
  apply Ha. apply in_map_iff in Hx. destruct Hx as (y & <- & Hy).
  apply in_map. apply filter_In in Hy. apply Hy.
Qed.

(** C6. Strike order: for every input on which the run completes, the Put
    Strike values of the Create Synthetic Call entries of the
    transformation log, in step order, are non-increasing: every entry's
    strike is greater than or equal to the strike of every later entry. *)
Theorem strike_order (df : DataFrame) (r : Run) :
  run (standardize df) = Some r ->
  StronglySorted Z.ge
    (map log_Put_Strike
         (filter is_create (transformation_log (allocation r)))).
Proof.
  unfold run. intros H.
  destruct (get_underlying_price _ _) as [u |]; [| discriminate].
  injection H as <-. simpl.
  apply map_filter_sorted. unfold allocate.
  apply fold_strikes_sorted.
  - apply unique_sorted. apply sort_values_sorted.
  - constructor.
  - intros s k [].
Qed.

Lemma strike_order_witness :
  exists r, run (standardize load_sample_data) = Some r
            /\ StronglySorted Z.ge
                 (map log_Put_Strike
                      (filter is_create (transformation_log (allocation r)))).
Proof.
  eexists. split; [vm_compute; reflexivity |].
  apply (@strike_order load_sample_data).
  vm_compute; reflexivity.
Defined.

(** ** Underlying price resolution *)

Lemma filter_standardize (f : Row -> bool) df :
  filter f (standardize df)
  = map standardize_row (filter (fun r => f (standardize_row r)) df).
Proof.
  unfold standardize. induction df as [| r df IH]; simpl; [reflexivity |].
  destruct (f (standardize_row r)); simpl; rewrite IH; reflexivity.
Qed.

Lemma filter_head_find {A : Type} (f : A -> bool) l :
  find f l = hd_error (filter f l).
Proof.
  induction l as [| x l IH]; simpl; [reflexivity |].
  destruct (f x); [reflexivity | exact IH].
Qed.

Lemma get_underlying_price_find df :
  get_underlying_price (filter is_futures (standardize df))
                       (filter is_cash (standardize df))
  = match find is_futures_position df with
    | Some f => Some (Market_price f)
    | None => option_map Market_price (find is_cash_position df)
    end.
Proof.
  rewrite !filter_standardize.
  unfold is_futures_position, is_cash_position.
  rewrite !filter_head_find.
  destruct (filter (fun r => is_futures (standardize_row r)) df) as [| f ?];
    simpl; [| reflexivity].
  destruct (filter (fun r => is_cash (standardize_row r)) df) as [| c ?];
    reflexivity.
Qed.

(** C8. Underlying price resolution: when the input has a Futures position
    the underlying price is the market price of the first Futures row in
    input order; otherwise, when it has a Cash position, the market price
    of the first Cash row; otherwise the run returns no result at all. *)
Theorem underlying_price_resolution (df : DataFrame) :
  match find is_futures_position df with
  | Some f =>
      exists final_portfolio log,
        snd (process_portfolio df) = Some (final_portfolio, log, Market_price f)
  | None =>
      match find is_cash_position df with
      | Some c =>
          exists final_portfolio log,
            snd (process_portfolio df)
            = Some (final_portfolio, log, Market_price c)
      | None => snd (process_portfolio df) = None
      end
  end.
Proof.
  unfold process_portfolio, run. simpl.
  rewrite get_underlying_price_find.
  destruct (find is_futures_position df) as [f |].
  - simpl. eexists. eexists. reflexivity.
  - destruct (find is_cash_position df) as [c |]; simpl.
    + eexists. eexists. reflexivity.
    + reflexivity.
Qed.

(** ** The write to the caller's frame *)

Lemma is_space_lower_char c :
  PyStr.is_space (PyStr.lower_char c) = PyStr.is_space c.
Proof. destruct c as [[] [] [] [] [] [] [] []]; reflexivity. Qed.

Lemma lower_char_idem c :
  PyStr.lower_char (PyStr.lower_char c) = PyStr.lower_char c.
Proof. destruct c as [[] [] [] [] [] [] [] []]; reflexivity. Qed.

Lemma lower_idem s : PyStr.lower (PyStr.lower s) = PyStr.lower s.
Proof.
  induction s as [| c s IH]; simpl; [reflexivity |].
  rewrite lower_char_idem, IH. reflexivity.
Qed.

Lemma lower_lstrip s :
  PyStr.lower (PyStr.lstrip s) = PyStr.lstrip (PyStr.lower s).
Proof.
  induction s as [| c s IH]; simpl; [reflexivity |].
  rewrite is_space_lower_char.
  destruct (PyStr.is_space c); [exact IH | reflexivity].
Qed.

Lemma is_empty_lower s : PyStr.is_empty (PyStr.lower s) = PyStr.is_empty s.
Proof. destruct s; reflexivity. Qed.

Lemma lower_rstrip s :
  PyStr.lower (PyStr.rstrip s) = PyStr.rstrip (PyStr.lower s).
Proof.
  induction s as [| c s IH]; simpl; [reflexivity |].
  rewrite is_space_lower_char, <- IH, is_empty_lower.
  destruct (PyStr.is_space c && PyStr.is_empty (PyStr.rstrip s));
    reflexivity.
Qed.

Lemma rstrip_idem s : PyStr.rstrip (PyStr.rstrip s) = PyStr.rstrip s.
Proof.
  induction s as [| c s IH]; simpl; [reflexivity |].
  destruct (PyStr.is_space c && PyStr.is_empty (PyStr.rstrip s)) eqn:E;
    simpl; [reflexivity |].
  rewrite IH, E. reflexivity.
Qed.

Lemma lstrip_head s :
  PyStr.lstrip s = EmptyString
  \/ exists c t, PyStr.lstrip s = String c t /\ PyStr.is_space c = false.
Proof.
  induction s as [| c s IH]; simpl; [left; reflexivity |].
  destruct (PyStr.is_space c) eqn:E; [exact IH |].
  right. exists c, s. split; [reflexivity | exact E].
Qed.

Lemma strip_idem s : PyStr.strip (PyStr.strip s) = PyStr.strip s.
Proof.
  unfold PyStr.strip.
  destruct (lstrip_head s) as [-> | (c & t & -> & Hc)]; [reflexivity |].
  simpl. rewrite Hc. simpl. rewrite Hc. simpl.
  rewrite rstrip_idem. rewrite Hc. reflexivity.
Qed.

Lemma strip_lower s :
  PyStr.strip (PyStr.lower s) = PyStr.lower (PyStr.strip s).
Proof.
  unfold PyStr.strip. rewrite <- lower_lstrip, <- lower_rstrip. reflexivity.
Qed.

Lemma normalize_name_idem s :
  normalize_name (normalize_name s) = normalize_name s.
Proof.
  unfold normalize_name.
  rewrite strip_lower, lower_idem, strip_idem. reflexivity.
Qed.

Lemma standardize_idem df : standardize (standardize df) = standardize df.
Proof.
  unfold standardize. rewrite map_map. apply map_ext.
  intros [i q k m]. unfold standardize_row. simpl.
  rewrite normalize_name_idem. reflexivity.
Qed.

(** C4, as the code has it. A run is a function of its input frame; its one
    effect outside the run is on that frame: the Instrument column is
    overwritten with the stripped, lower-cased names, while the Position,
    Strike and Market price columns stay as they were. A second run on the
    frame the first run left behind returns the same result and changes the
    frame no further. *)
Theorem run_effect_on_input (df : DataFrame) :
  map Instrument (fst (process_portfolio df))
    = map normalize_name (map Instrument df)
  /\ map Position (fst (process_portfolio df)) = map Position df
  /\ map Strike (fst (process_portfolio df)) = map Strike df
  /\ map Market_price (fst (process_portfolio df)) = map Market_price df
  /\ process_portfolio (fst (process_portfolio df)) = process_portfolio df.
Proof.
  unfold process_portfolio. simpl.
  split; [| split; [| split; [| split]]].
  - unfold standardize. rewrite !map_map. reflexivity.
  - unfold standardize. rewrite map_map. reflexivity.
  - unfold standardize. rewrite map_map. reflexivity.
  - unfold standardize. rewrite map_map. reflexivity.
  - rewrite standardize_idem. reflexivity.
Qed.

(** C4, as stated, fails: the run on the sample data changes the caller's
    frame. *)
Lemma input_frame_is_modified :
  fst (process_portfolio load_sample_data) <> load_sample_data.
Proof. vm_compute. discriminate. Qed.

(** ** Puts without a strike *)

Lemma fold_strikes_skip_missing u ps strikes st :
  fold_left (process_strike u ps) strikes st
  = fold_left (process_strike u ps) (filter notna strikes) st.
Proof.
  revert st. induction strikes as [| s strikes IH]; intros st; simpl.
  - reflexivity.
  - destruct s as [k |]; simpl; apply IH.
Qed.

Lemma filter_swap {A : Type} (f g : A -> bool) l :
  filter f (filter g l) = filter g (filter f l).
Proof.
  induction l as [| x l IH]; simpl; [reflexivity |].
  destruct (f x) eqn:Ef; destruct (g x) eqn:Eg; simpl;
    rewrite ?Ef, ?Eg, IH; reflexivity.
Qed.

Lemma filter_all {A : Type} (f : A -> bool) l :
  Forall (fun x => f x = true) l -> filter f l = l.
Proof.
  induction 1 as [| x l Hx _ IH]; simpl; [reflexivity |].
  rewrite Hx, IH. reflexivity.
Qed.

Lemma filter_none {A : Type} (f : A -> bool) l :
  Forall (fun x => f x = false) l -> filter f l = [].
Proof.
  induction 1 as [| x l Hx _ IH]; simpl; [reflexivity |].
  rewrite Hx. exact IH.
Qed.

Lemma unique_filter_notna l :
  filter notna (unique l) = unique (filter notna l).
Proof.
  induction l as [| s l IH]; simpl; [reflexivity |].
  destruct s as [k |]; simpl.
  - rewrite filter_swap, IH. reflexivity.
  - rewrite filter_swap, IH. apply filter_all.
    apply Forall_forall. intros x Hx.
    apply unique_In in Hx. apply filter_In in Hx.
    destruct x; [reflexivity | destruct Hx as [_ Hx]; discriminate].
Qed.

Lemma process_strike_ignores_missing u rows missing st s :
  Forall (fun r => isna (Strike r) = true) missing ->
  process_strike u (rows ++ missing) st s = process_strike u rows st s.
Proof.
  intros H. destruct s as [k |]; simpl; [| reflexivity].
  rewrite filter_app.
  rewrite (@filter_none _ _ missing); [rewrite app_nil_r; reflexivity |].
  apply Forall_forall. intros r Hr.
  rewrite Forall_forall in H. specialize (H r Hr).
  destruct (Strike r); [discriminate | reflexivity].
Qed.

Lemma fold_left_pointwise {A B : Type} (f g : A -> B -> A) l a :
  (forall x y, f x y = g x y) -> fold_left f l a = fold_left g l a.
Proof.
  intros H. revert a. induction l as [| y l IH]; intros a; simpl;
    [reflexivity | rewrite H; apply IH].
Qed.

(** The allocation depends on the rows with a strike only. *)
Lemma allocate_ignores_missing u rows missing tf tc :
  Forall (fun r => isna (Strike r) = false) rows ->
  Forall (fun r => isna (Strike r) = true) missing ->
  allocate u (rows ++ missing) tf tc = allocate u rows tf tc.
Proof.
  intros Hr Hm. unfold allocate.
  rewrite fold_strikes_skip_missing, unique_filter_notna.
  rewrite map_app, filter_app.
  rewrite (@filter_all _ notna (map Strike rows)).
  - rewrite (@filter_none _ notna (map Strike missing)).
    + rewrite app_nil_r. apply fold_left_pointwise.
      intros st s. apply process_strike_ignores_missing. exact Hm.
    + apply Forall_forall. intros s Hs.
      apply in_map_iff in Hs. destruct Hs as (r & <- & Hin).
      rewrite Forall_forall in Hm. unfold notna. rewrite (Hm r Hin).
      reflexivity.
  - apply Forall_forall. intros s Hs.
    apply in_map_iff in Hs. destruct Hs as (r & <- & Hin).
    rewrite Forall_forall in Hr. unfold notna. rewrite (Hr r Hin).
    reflexivity.
Qed.

Lemma allocate_sort_values u puts tf tc :
  allocate u (sort_values_Strike_desc puts) tf tc
  = allocate u (sort_desc (filter (fun r => negb (isna (Strike r))) puts))
             tf tc.
Proof.
  unfold sort_values_Strike_desc. apply allocate_ignores_missing.
  - apply Forall_forall. intros r Hr.
    apply (proj1 (sort_desc_In _ _)) in Hr. apply filter_In in Hr.
    apply negb_true_iff. apply Hr.
  - apply Forall_forall. intros r Hr. apply filter_In in Hr. apply Hr.
Qed.

Lemma filter_filter_and {A : Type} (f g : A -> bool) l :
  filter f (filter g l) = filter (fun x => g x && f x) l.
Proof.
  induction l as [| x l IH]; simpl; [reflexivity |].
  destruct (g x); simpl; [destruct (f x) |]; rewrite IH; reflexivity.
Qed.

Lemma futures_is_not_put r : is_futures r = true -> is_put r = false.
Proof.
  unfold is_futures, is_put. intros H.
  apply String.eqb_eq in H. rewrite H. reflexivity.
Qed.

Lemma cash_is_not_put r : is_cash r = true -> is_put r = false.
Proof.
  unfold is_cash, is_put. intros H.
  apply String.eqb_eq in H. rewrite H. reflexivity.
Qed.

Lemma unmatched_loop_type rows unmatched :
  Forall (fun e => fp_Type e = Unmatched_Put) (unmatched_loop rows unmatched).
Proof.
  revert unmatched. induction rows as [| row rows IH]; intros unmatched; simpl.
  - constructor.
  - destruct (unmatched <=? 0); [constructor |].
    destruct (0 <? Z.min (Position row) unmatched).
    + constructor; [reflexivity | apply IH].
    + apply IH.
Qed.

Lemma unmatched_rows_type puts ps tf tc st :
  Forall (fun e => fp_Type e = Unmatched_Put) (unmatched_rows puts ps tf tc st).
Proof.
  unfold unmatched_rows. destruct (0 <? _); [| constructor].
  apply unmatched_loop_type.
Qed.

Section DroppedRows.
(** [keep] drops only put rows without a strike. *)
Variable keep : Row -> bool.
Hypothesis keep_spec : forall r,
  keep r = false -> is_put r = true /\ isna (Strike r) = true.

Lemma kept_futures frame :
  filter is_futures (filter keep frame) = filter is_futures frame.
Proof.
  rewrite filter_filter_and. apply filter_ext. intros r.
  destruct (keep r) eqn:E; [reflexivity |].
  destruct (keep_spec E) as [Hp _]. simpl.
  destruct (is_futures r) eqn:F; [| reflexivity].
  rewrite (futures_is_not_put r F) in Hp. discriminate.
Qed.

Lemma kept_cash frame :
  filter is_cash (filter keep frame) = filter is_cash frame.
Proof.
  rewrite filter_filter_and. apply filter_ext. intros r.
  destruct (keep r) eqn:E; [reflexivity |].
  destruct (keep_spec E) as [Hp _]. simpl.
  destruct (is_cash r) eqn:F; [| reflexivity].
  rewrite (cash_is_not_put r F) in Hp. discriminate.
Qed.

Lemma kept_puts_with_strike frame :
  filter (fun r => negb (isna (Strike r))) (filter is_put (filter keep frame))
  = filter (fun r => negb (isna (Strike r))) (filter is_put frame).
Proof.
  rewrite !filter_filter_and. apply filter_ext. intros r.
  destruct (keep r) eqn:E; [reflexivity |].
  destruct (keep_spec E) as [Hp Hn]. rewrite Hp, Hn. reflexivity.
Qed.

(** The run on the kept rows: same allocation (balances, synthetic
    calls, log), same price and totals. *)
Lemma dropped_rows_run frame :
  match run frame, run (filter keep frame) with
  | Some r, Some r' =>
      allocation r = allocation r'
      /\ underlying_price r = underlying_price r'
      /\ total_futures r = total_futures r'
      /\ total_cash r = total_cash r'
      /\ filter is_stock_or_synthetic (final_portfolio r)
         = filter is_stock_or_synthetic (final_portfolio r')
  | None, None => True
  | _, _ => False
  end.
Proof.
  unfold run. rewrite kept_futures, kept_cash.
  destruct (get_underlying_price _ _) as [u |]; [| exact I].
  simpl.
  rewrite !allocate_sort_values, kept_puts_with_strike.
  repeat split.
  rewrite !filter_app. f_equal. f_equal.
  rewrite !(@filter_none _ is_stock_or_synthetic (map call_row _)).
  - rewrite !(@filter_none _ is_stock_or_synthetic (unmatched_rows _ _ _ _ _)).
    + reflexivity.
    + eapply Forall_impl; [| apply unmatched_rows_type].
      intros e He. unfold is_stock_or_synthetic, has_type.
      rewrite He. reflexivity.
    + eapply Forall_impl; [| apply unmatched_rows_type].
      intros e He. unfold is_stock_or_synthetic, has_type.
      rewrite He. reflexivity.
  - apply Forall_forall. intros e He.
    apply in_map_iff in He. destruct He as (c & <- & _). reflexivity.
  - apply Forall_forall. intros e He.
    apply in_map_iff in He. destruct He as (c & <- & _). reflexivity.
Qed.

Lemma kept_calls frame :
  (forall r, keep r = false -> is_call r = false) ->
  filter is_call (filter keep frame) = filter is_call frame.
Proof.
  intros H. rewrite filter_filter_and. apply filter_ext. intros r.
  destruct (keep r) eqn:E; [reflexivity |]. simpl.
  symmetry. apply H. exact E.
Qed.

(** When no dropped row is also a call, only the Unmatched Put rows of
    the final portfolio can differ. *)
Lemma dropped_rows_portfolio frame :
  (forall r, keep r = false -> is_call r = false) ->
  match run frame, run (filter keep frame) with
  | Some r, Some r' =>
      filter is_not_unmatched (final_portfolio r)
      = filter is_not_unmatched (final_portfolio r')
  | None, None => True
  | _, _ => False
  end.
Proof.
  intros Hcalls. unfold run.
  rewrite kept_futures, kept_cash, (kept_calls _ Hcalls).
  destruct (get_underlying_price _ _) as [u |]; [| exact I].
  simpl.
  rewrite !allocate_sort_values, kept_puts_with_strike.
  rewrite !filter_app. f_equal. f_equal. f_equal.
  rewrite !(@filter_none _ is_not_unmatched (unmatched_rows _ _ _ _ _)).
  - reflexivity.
  - eapply Forall_impl; [| apply unmatched_rows_type].
    intros e He. unfold is_not_unmatched, has_type.
    rewrite He. reflexivity.
  - eapply Forall_impl; [| apply unmatched_rows_type].
    intros e He. unfold is_not_unmatched, has_type.
    rewrite He. reflexivity.
Qed.
End DroppedRows.

Lemma standardize_drop_puts df :
  standardize (drop_rows is_put_without_strike df)
  = filter (fun r => negb (is_put r && isna (Strike r))) (standardize df).
Proof. rewrite filter_standardize. reflexivity. Qed.

Lemma standardize_drop_plain_puts df :
  standardize (drop_rows is_plain_put_without_strike df)
  = filter (fun r => negb (is_put r && isna (Strike r) && negb (is_call r)))
           (standardize df).
Proof. rewrite filter_standardize. reflexivity. Qed.

(** C9, as the code has it. Put positions without a strike are skipped by
    the allocation: removing them from the input changes neither the
    remaining balances, the synthetic calls and the transformation log, nor
    the underlying price, nor the Futures, Cash and Synthetic Call rows of
    the final portfolio; and removing those that are not also read as calls
    changes no row of the final portfolio other than Unmatched Put rows. *)
Theorem missing_strike_puts_skipped (df : DataFrame) :
  match run (standardize df),
        run (standardize (drop_rows is_put_without_strike df)),
        run (standardize (drop_rows is_plain_put_without_strike df)) with
  | Some r, Some r1, Some r2 =>
      allocation r = allocation r1
      /\ underlying_price r = underlying_price r1
      /\ filter is_stock_or_synthetic (final_portfolio r)
         = filter is_stock_or_synthetic (final_portfolio r1)
      /\ filter is_not_unmatched (final_portfolio r)
         = filter is_not_unmatched (final_portfolio r2)
  | None, None, None => True
  | _, _, _ => False
  end.
Proof.
  rewrite standardize_drop_puts, standardize_drop_plain_puts.
  pose proof (@dropped_rows_run
                (fun r => negb (is_put r && isna (Strike r)))) as H1.
  pose proof (@dropped_rows_portfolio
                (fun r => negb (is_put r && isna (Strike r)
                                && negb (is_call r)))) as H2.
  assert (K1 : forall r, negb (is_put r && isna (Strike r)) = false ->
                         is_put r = true /\ isna (Strike r) = true).
  { intros r Hr. apply negb_false_iff in Hr.
    apply andb_true_iff in Hr. exact Hr. }
  assert (K2 : forall r,
             negb (is_put r && isna (Strike r) && negb (is_call r)) = false ->
             is_put r = true /\ isna (Strike r) = true).
  { intros r Hr. apply negb_false_iff in Hr.
    apply andb_true_iff in Hr. destruct Hr as [Hr _].
    apply andb_true_iff in Hr. exact Hr. }
  assert (K3 : forall r,
             negb (is_put r && isna (Strike r) && negb (is_call r)) = false ->
             is_call r = false).
  { intros r Hr. apply negb_false_iff in Hr.
    apply andb_true_iff in Hr. destruct Hr as [_ Hr].
    apply negb_true_iff in Hr. exact Hr. }
  specialize (H1 K1 (standardize df)).
  specialize (H2 K2 (standardize df) K3).
  destruct (run (standardize df)) as [r |];
    destruct (run (filter _ (standardize df))) as [r1 |];
    destruct (run (filter _ (standardize df))) as [r2 |];
    try contradiction; try exact I.
  destruct H1 as (Ha & Hu & _ & _ & Hs).
  repeat split; assumption.
Qed.

(** C9, as stated, fails: a put without a strike is counted in
    [total_puts] and comes out as an Unmatched Put row, so the final
    portfolio is not the one of the input without that put. *)
Lemma missing_strike_put_is_reported :
  snd (process_portfolio missing_strike_frame)
  = Some ([ mkEntry Type_Futures None 10 100 1000 Long_Stock;
            mkEntry Unmatched_Put None 5 3 15 Put_Protection ], [], 100)
  /\ snd (process_portfolio (drop_rows is_put_without_strike missing_strike_frame))
     = Some ([ mkEntry Type_Futures None 10 100 1000 Long_Stock ], [], 100)
  /\ snd (process_portfolio missing_strike_frame)
     <> snd (process_portfolio
               (drop_rows is_put_without_strike missing_strike_frame)).
Proof.
  split; [vm_compute; reflexivity |].
  split; [vm_compute; reflexivity |].
  vm_compute. discriminate.
Qed.

(** ** The sample dataset *)

(** C2, as stated, fails on the code: the sample run yields three Original
    Call rows and two Unmatched Put rows. *)
Lemma sample_claim_fails : ~ sample_claim.
Proof.
  unfold sample_claim. vm_compute.
  intros (_ & _ & _ & H & _). discriminate.
Qed.

(** C2, as the code has it: on the sample dataset the underlying price is
    1191, the final portfolio has no Futures and no Cash row, six Synthetic
    Call rows, three Original Call rows equal to the three input calls, and
    Unmatched Put rows whose quantities total 15000; the transformation log
    has an Unmatched Puts step for 15000 at strike 1100. *)
Theorem sample_outcome :
  match snd (process_portfolio load_sample_data) with
  | Some (fp, log, underlying_price) =>
      underlying_price = 1191
      /\ rows_of_type Type_Futures fp = []
      /\ rows_of_type Type_Cash fp = []
      /\ List.length (rows_of_type Synthetic_Call fp) = 6%nat
      /\ rows_of_type Original_Call fp
         = [ mkEntry Original_Call (Some 1200) 100000 12 1200000 Call_like;
             mkEntry Original_Call (Some 1250) 11000 4 44000 Call_like;
             mkEntry Original_Call (Some 1150) 11000 62 682000 Call_like ]
      /\ sumZ (map fp_Position (rows_of_type Unmatched_Put fp)) = 15000
      /\ (exists e, In e log /\ is_unmatched_step 15000 1100 e)
  | None => False
  end.
Proof.
  vm_compute.
  repeat split.
  eexists. split.
  - do 6 right. left. reflexivity.
  - repeat split.
Qed.

(** ** Attribution of the unmatched quantity *)

(** C3 on the sample dataset, whose put lots have distinct strikes. The lot
    of 5000 at strike 1240 is consumed in full and the lot of 100000 at
    strike 1100 is left with 15000, as the log records; the final portfolio
    attributes 5000 unmatched to the first and nothing to the second, so
    consumed plus attributed is 10000 for the lot of 5000 and 85000 for
    the lot of 100000. *)
Theorem sample_unmatched_attribution :
  match snd (process_portfolio load_sample_data) with
  | Some (fp, log, _) =>
      matched_at 1240 log = 5000 /\ left_over_at 1240 log = 0
      /\ unmatched_at 1240 fp = 5000
      /\ matched_at 1240 log + unmatched_at 1240 fp = 10000
      /\ matched_at 1100 log = 85000 /\ left_over_at 1100 log = 15000
      /\ unmatched_at 1100 fp = 0
      /\ matched_at 1100 log + unmatched_at 1100 fp = 85000
      /\ rows_of_type Unmatched_Put fp
         = [ mkEntry Unmatched_Put (Some 1240) 5000 60 300000 Put_Protection;
             mkEntry Unmatched_Put (Some 1230) 10000 65 650000 Put_Protection ]
  | None => False
  end.
Proof. vm_compute. repeat split. Qed.

(** The log itself accounts for every put lot: the amounts of the steps a
    lot of non-negative quantity adds to the log (its Create Synthetic Call
    steps and its Unmatched Puts step) sum to the quantity of the lot. *)
Lemma put_row_log_conservation u k st row :
  0 <= Position row ->
  exists steps,
    transformation_log (process_put_row u k st row)
      = transformation_log st ++ steps
    /\ sumZ (map log_Amount steps) = Position row.
Proof.
  intros Hq.
  pose (P := fun (ptp : Z) (s : Alloc) =>
          0 <= ptp /\
          exists steps,
            transformation_log s = transformation_log st ++ steps
            /\ sumZ (map log_Amount steps) + ptp = Position row).
  assert (HP : P (fst (while_loop u k (Market_price row) (Position row) st))
                 (snd (while_loop u k (Market_price row) (Position row) st))).
  { apply (while_loop_inv P u k (Market_price row)).
    - intros ptp s Hc (Hnn & steps & Hlog & Hsum).
      destruct (loop_body_shape u k (Market_price row) ptp s Hc)
        as (amount & source & Hpos & Hle & _ & ->).
      unfold P. simpl. split; [lia |].
      exists (steps ++ [new_step u k (Market_price row) amount source s]).
      rewrite Hlog, app_assoc, map_app, sumZ_app. simpl.
      split; [reflexivity | lia].
    - split; [exact Hq |]. exists []. simpl.
      split; [symmetry; apply app_nil_r | lia]. }
  unfold process_put_row.
  destruct (while_loop u k (Market_price row) (Position row) st)
    as [ptp' st'].
  destruct HP as (Hnn & steps & Hlog & Hsum). simpl in Hnn, Hlog, Hsum.
  destruct (Z.ltb_spec 0 ptp').
  - eexists. simpl. rewrite Hlog, <- app_assoc. split; [reflexivity |].
    rewrite map_app, sumZ_app. simpl. lia.
  - exists steps. split; [exact Hlog | lia].
Qed.

(** * Further properties of [process_portfolio] *)

(** ** Invariants that use the exit condition of the loop *)

Section RowExit.
Variables (u k p : Z) (P : Alloc -> Prop).

Hypothesis P_pass : forall ptp st,
  loop_cond ptp st = true -> P st -> P (snd (loop_body u k p ptp st)).
Hypothesis P_left : forall ptp st,
  loop_cond ptp st = false -> 0 < ptp -> P st ->
  P (log_unmatched k p ptp st).

Lemma process_put_row_keeps st row :
  Market_price row = p -> P st -> P (process_put_row u k st row).
Proof.
  intros Hp H. unfold process_put_row. rewrite Hp.
  destruct (while_loop_inv (fun _ s => P s) u k p
              (fun ptp s Hc Hs => @P_pass ptp s Hc Hs) (Position row) st H)
    as [Hw Hend].
  destruct (while_loop u k p (Position row) st) as [ptp' st'].
  simpl in Hw, Hend.
  destruct (Z.ltb_spec 0 ptp'); [apply P_left |]; assumption.
Qed.
End RowExit.

Section AllocExit.
Variables (u : Z) (ps : DataFrame) (P : Alloc -> Prop).

Hypothesis P_pass : forall row k ptp st,
  In row ps -> Strike row = Some k ->
  loop_cond ptp st = true -> P st ->
  P (snd (loop_body u k (Market_price row) ptp st)).
Hypothesis P_left : forall row k ptp st,
  In row ps -> Strike row = Some k ->
  loop_cond ptp st = false -> 0 < ptp -> P st ->
  P (log_unmatched k (Market_price row) ptp st).

Lemma fold_rows_keeps k rows st :
  (forall row, In row rows -> In row ps /\ Strike row = Some k) ->
  P st -> P (fold_left (process_put_row u k) rows st).
Proof.
  revert st. induction rows as [| row rows IH]; intros st Hin H; simpl.
  - exact H.
  - apply IH; [intros r Hr; apply Hin; right; exact Hr |].
    destruct (Hin row (or_introl eq_refl)) as [Hps Hk].
    apply process_put_row_keeps with (p := Market_price row);
      [ intros; apply P_pass; assumption
      | intros; apply P_left; assumption
      | reflexivity | exact H ].
Qed.

Lemma fold_strikes_keeps strikes st :
  P st -> P (fold_left (process_strike u ps) strikes st).
Proof.
  revert st. induction strikes as [| s strikes IH]; intros st H; simpl.
  - exact H.
  - apply IH. destruct s as [k |]; simpl; [| exact H].
    apply fold_rows_keeps; [| exact H].
    intros row Hr. apply filter_In in Hr. destruct Hr as [Hin Hk].
    split; [exact Hin | apply strike_eqb_Some; exact Hk].
Qed.

Lemma allocate_keeps total_futures total_cash :
  P (mkAlloc total_futures total_cash [] []) ->
  P (allocate u ps total_futures total_cash).
Proof. apply fold_strikes_keeps. Qed.
End AllocExit.

(** The run on a frame, opened up for the proofs below. *)
Lemma run_Some df r :
  run df = Some r ->
  exists u,
    get_underlying_price (filter is_futures df) (filter is_cash df) = Some u
    /\ underlying_price r = u
    /\ total_futures r = sum_Position (filter is_futures df)
    /\ total_cash r = sum_Position (filter is_cash df)
    /\ puts_sorted r = sort_values_Strike_desc (filter is_put df)
    /\ allocation r
       = allocate u (sort_values_Strike_desc (filter is_put df))
                  (sum_Position (filter is_futures df))
                  (sum_Position (filter is_cash df))
    /\ final_portfolio r
       = stock_rows u (allocation r)
         ++ map synthetic_row (synthetic_calls (allocation r))
         ++ map call_row (filter is_call df)
         ++ unmatched_rows (filter is_put df) (puts_sorted r)
                           (total_futures r) (total_cash r) (allocation r).
Proof.
  unfold run. intros H.
  destruct (get_underlying_price _ _) as [u |]; [| discriminate].
  injection H as <-. exists u. simpl. repeat split.
Qed.

(** ** Step numbers *)

Lemma numbered_snoc st e :
  numbered st ->
  log_Step e = Z.of_nat (List.length (transformation_log st)) + 1 ->
  map log_Step (transformation_log st ++ [e])
  = map Z.of_nat (seq 1 (List.length (transformation_log st ++ [e]))).
Proof.
  unfold numbered. intros H He.
  rewrite map_app, H, length_app. simpl.
  rewrite Nat.add_1_r, seq_S, map_app. simpl.
  rewrite He. f_equal. f_equal. lia.
Qed.

Lemma allocate_numbered u ps tf tc : numbered (allocate u ps tf tc).
Proof.
  apply allocate_preserves.
  - intros row k ptp st _ _ Hc Hn.
    destruct (loop_body_shape u k (Market_price row) ptp st Hc)
      as (amount & source & _ & _ & _ & ->).
    unfold numbered. simpl. apply numbered_snoc; [exact Hn | reflexivity].
  - intros row k ptp st _ _ _ Hn.
    unfold numbered. simpl. apply numbered_snoc; [exact Hn | reflexivity].
  - reflexivity.
Qed.

(** X1. The steps of the transformation log are numbered 1, 2, ..., n in
    the order in which they were recorded. *)
Theorem steps_are_numbered (df : DataFrame) (r : Run) :
  run (standardize df) = Some r ->
  map log_Step (transformation_log (allocation r))
  = map Z.of_nat (seq 1 (List.length (transformation_log (allocation r)))).
Proof.
  intros H. destruct (run_Some _ H) as (u & _ & _ & _ & _ & _ & -> & _).
  apply allocate_numbered.
Qed.

Lemma steps_are_numbered_witness :
  exists r, run (standardize load_sample_data) = Some r
            /\ map log_Step (transformation_log (allocation r))
               = [1; 2; 3; 4; 5; 6; 7].
Proof.
  eexists. split; [vm_compute; reflexivity |].
  apply (@steps_are_numbered load_sample_data).
  vm_compute; reflexivity.
Defined.

(** ** Signs of the recorded quantities and of the balances *)

Lemma allocate_amounts_positive u ps tf tc :
  amounts_positive (allocate u ps tf tc).
Proof.
  apply allocate_preserves.
  - intros row k ptp st _ _ Hc [Hl Hs].
    destruct (loop_body_shape u k (Market_price row) ptp st Hc)
      as (amount & source & Hpos & _ & _ & ->).
    split; simpl; apply Forall_app; split; try assumption;
      repeat constructor; exact Hpos.
  - intros row k ptp st _ _ Hpos [Hl Hs].
    split; simpl; [| exact Hs].
    apply Forall_app. split; [exact Hl | repeat constructor; exact Hpos].
  - split; constructor.
Qed.

Lemma allocate_not_overdrawn u ps tf tc :
  not_overdrawn tf tc (allocate u ps tf tc).
Proof.
  apply allocate_preserves.
  - intros row k ptp st _ _ Hc [Hf Hcash].
    destruct (loop_body_shape u k (Market_price row) ptp st Hc)
      as (amount & source & Hpos & _ & Hbr & ->).
    unfold not_overdrawn. simpl.
    destruct Hbr as [(-> & ? & ? & ?) | (-> & ? & ? & ?)]; simpl;
      split; intros; try lia; auto.
  - intros row k ptp st _ _ _ H. exact H.
  - split; intros H; exact H.
Qed.

Lemma unmatched_loop_positive rows unmatched :
  Forall (fun e => 0 < fp_Position e /\ fp_Type e = Unmatched_Put)
         (unmatched_loop rows unmatched).
Proof.
  revert unmatched. induction rows as [| row rows IH]; intros unmatched; simpl.
  - constructor.
  - destruct (unmatched <=? 0); [constructor |].
    destruct (Z.ltb_spec 0 (Z.min (Position row) unmatched)).
    + constructor; [split; [assumption | reflexivity] | apply IH].
    + apply IH.
Qed.

Lemma stock_rows_positive u st :
  Forall (fun e => 0 < fp_Position e
                   /\ (fp_Type e = Type_Futures \/ fp_Type e = Type_Cash))
         (stock_rows u st).
Proof.
  unfold stock_rows. apply Forall_app. split.
  - destruct (Z.ltb_spec 0 (remaining_futures st)); constructor;
      [split; [assumption | left; reflexivity] | constructor].
  - destruct (Z.ltb_spec 0 (remaining_cash st)); constructor;
      [split; [assumption | right; reflexivity] | constructor].
Qed.

(** X2. Nothing of quantity zero or less is ever recorded: every step of
    the transformation log has a positive Amount, every synthetic call a
    positive quantity, and every row of the final portfolio other than an
    Original Call row a positive Position. *)
Theorem recorded_quantities_positive (df : DataFrame) (r : Run) :
  run (standardize df) = Some r ->
  Forall (fun e => 0 < log_Amount e) (transformation_log (allocation r))
  /\ Forall (fun sc => 0 < sc_Position sc) (synthetic_calls (allocation r))
  /\ Forall (fun e => fp_Type e <> Original_Call -> 0 < fp_Position e)
            (final_portfolio r).
Proof.
  intros H.
  destruct (run_Some _ H) as (u & _ & _ & _ & _ & _ & Ha & Hfp).
  pose proof (allocate_amounts_positive u
                (sort_values_Strike_desc (filter is_put (standardize df)))
                (sum_Position (filter is_futures (standardize df)))
                (sum_Position (filter is_cash (standardize df)))) as [Hl Hs].
  rewrite <- Ha in Hl, Hs.
  split; [exact Hl |].
  split; [eapply Forall_impl; [| exact Hs]; intros sc [Hp _]; exact Hp |].
  rewrite Hfp. repeat rewrite Forall_app. repeat split.
  - eapply Forall_impl; [| apply stock_rows_positive].
    intros e [Hp _] _. exact Hp.
  - apply Forall_forall. intros e He.
    apply in_map_iff in He. destruct He as (sc & <- & Hsc).
    rewrite Forall_forall in Hs. intros _. simpl. apply (Hs sc Hsc).
  - apply Forall_forall. intros e He.
    apply in_map_iff in He. destruct He as (c & <- & _).
    intros Hne. exfalso. apply Hne. reflexivity.
  - unfold unmatched_rows. destruct (0 <? _); [| constructor].
    eapply Forall_impl; [| apply unmatched_loop_positive].
    intros e [Hp _] _. exact Hp.
Qed.

Lemma recorded_quantities_positive_witness :
  exists r, run (standardize load_sample_data) = Some r
            /\ Forall (fun e => 0 < log_Amount e)
                      (transformation_log (allocation r)).
Proof.
  eexists. split; [vm_compute; reflexivity |].
  eapply proj1. apply (@recorded_quantities_positive load_sample_data).
  vm_compute; reflexivity.
Defined.

(** X3. No overdraft: when the total Futures quantity is not negative the
    remaining futures balance is not negative, and likewise for Cash. *)
Theorem balances_not_overdrawn (df : DataFrame) (r : Run) :
  run (standardize df) = Some r ->
  (0 <= total_futures r -> 0 <= remaining_futures (allocation r))
  /\ (0 <= total_cash r -> 0 <= remaining_cash (allocation r)).
Proof.
  intros H.
  destruct (run_Some _ H) as (u & _ & _ & -> & -> & _ & -> & _).
  apply allocate_not_overdrawn.
Qed.

Lemma balances_not_overdrawn_witness :
  exists r, run (standardize two_source_frame) = Some r
            /\ 0 <= remaining_futures (allocation r)
            /\ 0 <= remaining_cash (allocation r).
Proof.
  eexists. split; [vm_compute; reflexivity |].
  destruct (@balances_not_overdrawn two_source_frame _
              ltac:(vm_compute; reflexivity)) as [Hf Hc].
  split; [apply Hf | apply Hc]; vm_compute; discriminate.
Defined.

(** ** Order of the sources *)

Lemma allocate_sources_ordered u ps tf tc :
  sources_ordered (allocate u ps tf tc).
Proof.
  apply allocate_preserves.
  - intros row k ptp st _ _ Hc [Hs Hcash].
    destruct (loop_body_shape u k (Market_price row) ptp st Hc)
      as (amount & source & Hpos & _ & Hbr & ->).
    unfold sources_ordered, create_sources in *. simpl.
    rewrite filter_app, map_app. simpl.
    split.
    + apply StronglySorted_app; [exact Hs | repeat constructor |].
      intros x y Hx [<- | []] Hxc. subst x.
      destruct Hbr as [(-> & Hrf & _) | (-> & _)]; [| discriminate].
      specialize (Hcash Hx). lia.
    + intros Hin. apply in_app_or in Hin.
      destruct Hbr as [(-> & ? & ? & ?) | (-> & ? & ? & ?)]; simpl.
      * destruct Hin as [Hin | [Hin | []]]; [| discriminate].
        specialize (Hcash Hin). lia.
      * assumption.
  - intros row k ptp st _ _ _ [Hs Hcash].
    unfold sources_ordered, create_sources in *. simpl.
    rewrite filter_app, map_app. simpl. rewrite app_nil_r.
    split; assumption.
  - split; [constructor | intros []].
Qed.

(** X4. Futures before Cash: among the Create Synthetic Call steps of the
    log, no step drawn from Futures comes after a step drawn from Cash. *)
Theorem futures_steps_precede_cash_steps (df : DataFrame) (r : Run) :
  run (standardize df) = Some r ->
  StronglySorted cash_is_final
    (create_sources (transformation_log (allocation r))).
Proof.
  intros H.
  destruct (run_Some _ H) as (u & _ & _ & _ & _ & _ & -> & _).
  apply allocate_sources_ordered.
Qed.

Lemma futures_steps_precede_cash_steps_witness :
  exists r, run (standardize load_sample_data) = Some r
            /\ StronglySorted cash_is_final
                 (create_sources (transformation_log (allocation r))).
Proof.
  eexists. split; [vm_compute; reflexivity |].
  apply (@futures_steps_precede_cash_steps load_sample_data).
  vm_compute; reflexivity.
Defined.

(** ** Unmatched puts and the exhausted ledger *)

Lemma loop_cond_false ptp st :
  loop_cond ptp st = false -> 0 < ptp ->
  remaining_futures st <= 0 /\ remaining_cash st <= 0.
Proof.
  unfold loop_cond. intros H Hp.
  destruct (Z.ltb_spec 0 ptp); [| lia]. simpl in H.
  apply orb_false_iff in H. destruct H as [Hf Hc].
  apply Z.ltb_ge in Hf. apply Z.ltb_ge in Hc. split; assumption.
Qed.

Lemma allocate_exhausted_if_unmatched u ps tf tc :
  exhausted_if_unmatched (allocate u ps tf tc).
Proof.
  apply allocate_keeps.
  - intros row k ptp st _ _ Hc [Hall | [Hf Hcash]].
    + destruct (loop_body_shape u k (Market_price row) ptp st Hc)
        as (amount & source & _ & _ & _ & ->).
      left. simpl. apply Forall_app. split; [exact Hall | repeat constructor].
    + exfalso. unfold loop_cond in Hc.
      apply andb_true_iff in Hc. destruct Hc as [_ Hc].
      apply orb_true_iff in Hc.
      destruct Hc as [Hc | Hc]; apply Z.ltb_lt in Hc; lia.
  - intros row k ptp st _ _ Hc Hpos _.
    right. simpl. apply (@loop_cond_false ptp st Hc Hpos).
  - left. constructor.
Qed.

Lemma rows_of_one_type (t t' : EntryType) (l : list PortfolioEntry) :
  Forall (fun e => fp_Type e = t') l ->
  rows_of_type t l = if EntryType_eqb t' t then l else [].
Proof.
  intros H. unfold rows_of_type.
  destruct (EntryType_eqb t' t) eqn:E.
  - apply filter_all. eapply Forall_impl; [| exact H].
    intros e He. unfold has_type. rewrite He. exact E.
  - apply filter_none. eapply Forall_impl; [| exact H].
    intros e He. unfold has_type. rewrite He. exact E.
Qed.

Lemma rows_of_type_app t l1 l2 :
  rows_of_type t (l1 ++ l2) = rows_of_type t l1 ++ rows_of_type t l2.
Proof. unfold rows_of_type. apply filter_app. Qed.

(** The final portfolio, type by type. *)
Lemma final_portfolio_by_type df r :
  run df = Some r ->
  rows_of_type Type_Futures (final_portfolio r)
    = rows_of_type Type_Futures (stock_rows (underlying_price r) (allocation r))
  /\ rows_of_type Type_Cash (final_portfolio r)
    = rows_of_type Type_Cash (stock_rows (underlying_price r) (allocation r))
  /\ rows_of_type Synthetic_Call (final_portfolio r)
    = map synthetic_row (synthetic_calls (allocation r))
  /\ rows_of_type Original_Call (final_portfolio r)
    = map call_row (filter is_call df)
  /\ rows_of_type Unmatched_Put (final_portfolio r)
    = unmatched_rows (filter is_put df) (puts_sorted r)
                     (total_futures r) (total_cash r) (allocation r).
Proof.
  intros H.
  destruct (run_Some _ H) as (u & _ & Hu & _ & _ & _ & Ha & ->).
  assert (Hsyn : Forall (fun e => fp_Type e = Synthetic_Call)
                   (map synthetic_row (synthetic_calls (allocation r)))).
  { rewrite Ha. apply Forall_forall. intros e He.
    apply in_map_iff in He. destruct He as (sc & <- & Hsc).
    pose proof (allocate_amounts_positive u
                  (sort_values_Strike_desc (filter is_put df))
                  (sum_Position (filter is_futures df))
                  (sum_Position (filter is_cash df))) as [_ Hs].
    rewrite Forall_forall in Hs. apply (Hs sc Hsc). }
  assert (Hcall : Forall (fun e => fp_Type e = Original_Call)
                    (map call_row (filter is_call df))).
  { apply Forall_forall. intros e He.
    apply in_map_iff in He. destruct He as (c & <- & _). reflexivity. }
  pose proof (unmatched_rows_type (filter is_put df) (puts_sorted r)
                (total_futures r) (total_cash r) (allocation r)) as Hun.
  assert (Hstock : forall t, t <> Type_Futures -> t <> Type_Cash ->
            rows_of_type t (stock_rows u (allocation r)) = []).
  { intros t Hf Hc. unfold rows_of_type. apply filter_none.
    eapply Forall_impl; [| apply stock_rows_positive].
    intros e [_ [He | He]]; unfold has_type; rewrite He;
      destruct t; try reflexivity; congruence. }
  rewrite !rows_of_type_app.
  repeat match goal with
         | |- context [rows_of_type ?t (map synthetic_row ?l)] =>
             rewrite (@rows_of_one_type t _ _ Hsyn)
         | |- context [rows_of_type ?t (map call_row ?l)] =>
             rewrite (@rows_of_one_type t _ _ Hcall)
         | |- context [rows_of_type ?t (unmatched_rows ?a ?b ?c ?d ?f)] =>
             rewrite (@rows_of_one_type t _ _ Hun)
         end.
  rewrite (Hstock Synthetic_Call), (Hstock Original_Call),
          (Hstock Unmatched_Put) by discriminate.
  rewrite Hu. simpl.
  rewrite !app_nil_r. repeat split.
Qed.

(** X5. An Unmatched Puts step is recorded only once the ledger is
    exhausted: if the log of a run has one, neither balance is positive at
    the end of the run and the final portfolio has no Futures row and no
    Cash row. *)
Theorem unmatched_step_means_exhausted (df : DataFrame) (r : Run)
    (e : LogEntry) :
  run (standardize df) = Some r ->
  In e (transformation_log (allocation r)) ->
  log_Action e = Unmatched_Puts ->
  remaining_futures (allocation r) <= 0
  /\ remaining_cash (allocation r) <= 0
  /\ rows_of_type Type_Futures (final_portfolio r) = []
  /\ rows_of_type Type_Cash (final_portfolio r) = [].
Proof.
  intros H Hin He.
  destruct (@final_portfolio_by_type _ _ H) as (-> & -> & _).
  destruct (run_Some _ H) as (u & _ & _ & _ & _ & _ & Ha & _).
  pose proof (allocate_exhausted_if_unmatched u
                (sort_values_Strike_desc (filter is_put (standardize df)))
                (sum_Position (filter is_futures (standardize df)))
                (sum_Position (filter is_cash (standardize df)))) as Hx.
  rewrite <- Ha in Hx.
  destruct Hx as [Hall | [Hf Hc]].
  - rewrite Forall_forall in Hall. rewrite (Hall e Hin) in He. discriminate.
  - split; [exact Hf |]. split; [exact Hc |].
    unfold stock_rows.
    destruct (Z.ltb_spec 0 (remaining_futures (allocation r))); [lia |].
    destruct (Z.ltb_spec 0 (remaining_cash (allocation r))); [lia |].
    split; reflexivity.
Qed.

Lemma unmatched_step_means_exhausted_witness :
  exists r e,
    run (standardize load_sample_data) = Some r
    /\ In e (transformation_log (allocation r))
    /\ log_Action e = Unmatched_Puts
    /\ rows_of_type Type_Futures (final_portfolio r) = []
    /\ rows_of_type Type_Cash (final_portfolio r) = [].
Proof.
  eexists. exists (mkLog 7 Unmatched_Puts Puts 15000 1100 4 None).
  split; [vm_compute; reflexivity |].
  split; [vm_compute; tauto |].
  split; [reflexivity |].
  eapply proj2. eapply proj2.
  apply (@unmatched_step_means_exhausted load_sample_data _
           (mkLog 7 Unmatched_Puts Puts 15000 1100 4 None)).
  - vm_compute; reflexivity.
  - vm_compute; tauto.
  - reflexivity.
Defined.

(** X6. Calls pass through: the Original Call rows of the final portfolio
    are exactly the input call rows, one each and in input order, with the
    strike and position of the input row, valued at its market price. *)
Theorem original_calls_pass_through (df : DataFrame) (r : Run) :
  run (standardize df) = Some r ->
  rows_of_type Original_Call (final_portfolio r)
  = map (fun c => mkEntry Original_Call (Strike c) (Position c)
                           (Market_price c) (Position c * Market_price c)
                           Call_like)
        (filter (fun c => is_call (standardize_row c)) df).
Proof.
  intros H.
  destruct (@final_portfolio_by_type _ _ H) as (_ & _ & _ & -> & _).
  rewrite filter_standardize, map_map. reflexivity.
Qed.

Lemma original_calls_pass_through_witness :
  exists r, run (standardize load_sample_data) = Some r
            /\ List.length (rows_of_type Original_Call (final_portfolio r))
               = 3%nat.
Proof.
  eexists. split; [vm_compute; reflexivity |].
  rewrite (@original_calls_pass_through load_sample_data);
    vm_compute; reflexivity.
Defined.

(** X7. The log and the final portfolio agree on the synthetic calls: the
    Synthetic Call rows of the final portfolio are the synthetic calls in
    creation order, and there are as many of them as Create Synthetic Call
    steps in the log. *)
Theorem synthetic_rows_match_log (df : DataFrame) (r : Run) :
  run (standardize df) = Some r ->
  rows_of_type Synthetic_Call (final_portfolio r)
    = map synthetic_row (synthetic_calls (allocation r))
  /\ List.length (rows_of_type Synthetic_Call (final_portfolio r))
     = List.length (filter is_create (transformation_log (allocation r))).
Proof.
  intros H.
  destruct (@final_portfolio_by_type _ _ H) as (_ & _ & -> & _).
  split; [reflexivity |].
  rewrite length_map.
  destruct (run_Some _ H) as (u & _ & _ & _ & _ & _ & -> & _).
  apply (@Forall2_length _ _ _ _ _
           (allocate_valued u (filter is_put (standardize df))
              (sum_Position (filter is_futures (standardize df)))
              (sum_Position (filter is_cash (standardize df))))).
Qed.

Lemma synthetic_rows_match_log_witness :
  exists r, run (standardize load_sample_data) = Some r
            /\ List.length (rows_of_type Synthetic_Call (final_portfolio r))
               = List.length
                   (filter is_create (transformation_log (allocation r))).
Proof.
  eexists. split; [vm_compute; reflexivity |].
  eapply proj2. apply (@synthetic_rows_match_log load_sample_data).
  vm_compute; reflexivity.
Defined.

(** ** Totals *)

Lemma sumZ_pointwise {K : Type} (g h : K -> Z) ks :
  sumZ (map (fun k => g k + h k) ks) = sumZ (map g ks) + sumZ (map h ks).
Proof.
  induction ks as [| k ks IH]; simpl; [reflexivity | rewrite IH; lia].
Qed.

Section Partition.
Variables (A K : Type) (key : A -> K) (eqb : K -> K -> bool) (f : A -> Z).
Hypothesis eqb_spec : forall a b, eqb a b = true <-> a = b.

Lemma sum_at_one_key a v ks :
  NoDup ks -> In a ks ->
  sumZ (map (fun k => if eqb a k then v else 0) ks) = v.
Proof.
  induction 1 as [| k ks Hk Hnd IH]; intros Hin; [destruct Hin |].
  simpl. destruct (eqb a k) eqn:E.
  - apply eqb_spec in E. subst k.
    assert (Hz : sumZ (map (fun k => if eqb a k then v else 0) ks) = 0).
    { clear IH Hin Hnd. induction ks as [| k ks IH]; simpl; [reflexivity |].
      destruct (eqb a k) eqn:E.
      - apply eqb_spec in E. subst k. exfalso. apply Hk. left. reflexivity.
      - rewrite IH; [reflexivity |]. intros H. apply Hk. right. exact H. }
    rewrite Hz. lia.
  - destruct Hin as [-> | Hin].
    + assert (Hr : eqb a a = true) by (apply eqb_spec; reflexivity).
      rewrite Hr in E. discriminate.
    + rewrite (IH Hin). lia.
Qed.

(** Summing group by group, over keys without repetition that cover the
    list, gives the sum over the list. *)
Lemma sum_by_key ks l :
  NoDup ks -> (forall x, In x l -> In (key x) ks) ->
  sumZ (map (fun k => sumZ (map f (filter (fun x => eqb (key x) k) l))) ks)
  = sumZ (map f l).
Proof.
  intros Hnd. induction l as [| x l IH]; intros Hcov; simpl.
  - clear Hnd Hcov. induction ks as [| k ks IHk]; simpl; [reflexivity |].
    simpl in IHk. rewrite IHk. reflexivity.
  - rewrite <- IH by (intros y Hy; apply Hcov; right; exact Hy).
    rewrite <- (@sum_at_one_key (key x) (f x) ks Hnd
                  (Hcov x (or_introl eq_refl))).
    rewrite <- sumZ_pointwise. f_equal. apply map_ext. intros k.
    destruct (eqb (key x) k); simpl; lia.
Qed.
End Partition.

Lemma same_value_spec a b : same_value a b = true <-> a = b.
Proof.
  destruct a as [x |], b as [y |]; simpl.
  - rewrite Z.eqb_eq. split; [intros -> | intros [= ->]]; reflexivity.
  - split; discriminate.
  - split; discriminate.
  - split; reflexivity.
Qed.

Lemma unique_complete l x : In x l -> In x (unique l).
Proof.
  induction l as [| a l IH]; simpl; [tauto |].
  intros [-> | Hx]; [left; reflexivity |].
  destruct (same_value a x) eqn:E.
  - left. apply same_value_spec. exact E.
  - right. apply filter_In. split; [apply IH; exact Hx |]. rewrite E. reflexivity.
Qed.

Lemma unique_NoDup l : NoDup (unique l).
Proof.
  induction l as [| a l IH]; simpl; constructor.
  - intros H. apply filter_In in H. destruct H as [_ H].
    assert (E : same_value a a = true) by (apply same_value_spec; reflexivity).
    rewrite E in H. discriminate.
  - apply NoDup_filter. exact IH.
Qed.

(** Every row with a strike is visited once. *)
Lemma visited_total ps :
  sumZ (map (visited ps) (unique (map Strike ps)))
  = sum_Position (filter (fun r => negb (isna (Strike r))) ps).
Proof.
  transitivity
    (sumZ (map (fun k =>
                  sumZ (map Position
                          (filter (fun x => same_value (Strike x) k)
                             (filter (fun r => negb (isna (Strike r))) ps))))
               (unique (map Strike ps)))).
  - f_equal. apply map_ext. intros [k |]; simpl.
    + rewrite filter_filter_and. unfold sum_Position, sumZ.
      f_equal. f_equal. apply filter_ext.
      intros r. destruct (Strike r); reflexivity.
    + rewrite filter_filter_and.
      rewrite (@filter_none _ _ ps); [reflexivity |].
      apply Forall_forall. intros r _. destruct (Strike r); reflexivity.
  - apply (@sum_by_key Row (option Z) Strike same_value Position
             same_value_spec).
    + apply unique_NoDup.
    + intros r Hr. apply filter_In in Hr. apply unique_complete.
      apply in_map. apply Hr.
Qed.

Lemma fold_rows_logged u k rows st :
  Forall (fun r => 0 <= Position r) rows ->
  logged (fold_left (process_put_row u k) rows st)
  = logged st + sum_Position rows.
Proof.
  intros H. revert st.
  induction H as [| row rows Hrow _ IH]; intros st; simpl.
  - unfold sum_Position. simpl. lia.
  - rewrite IH.
    destruct (put_row_log_conservation u k st row Hrow) as (steps & E & Hs).
    unfold logged at 1. rewrite E, map_app, sumZ_app, Hs.
    unfold logged, sum_Position. simpl. lia.
Qed.

Lemma fold_strikes_logged u ps strikes st :
  Forall (fun r => 0 <= Position r)
         (filter (fun r => negb (isna (Strike r))) ps) ->
  logged (fold_left (process_strike u ps) strikes st)
  = logged st + sumZ (map (visited ps) strikes).
Proof.
  intros H. revert st.
  induction strikes as [| s strikes IH]; intros st; simpl.
  - lia.
  - rewrite IH. destruct s as [k |]; simpl; [| lia].
    rewrite fold_rows_logged; [lia |].
    apply Forall_forall. intros r Hr.
    rewrite Forall_forall in H. apply H.
    apply filter_In in Hr. destruct Hr as [Hin Hk].
    apply filter_In. split; [exact Hin |].
    destruct (Strike r); [reflexivity | discriminate].
Qed.

Lemma sum_Position_insert r l :
  sum_Position (insert_desc r l) = Position r + sum_Position l.
Proof.
  unfold sum_Position. induction l as [| h t IH]; simpl; [reflexivity |].
  destruct (strike_ltb (Strike r) (Strike h)); simpl; [rewrite IH |]; lia.
Qed.

Lemma sum_Position_sort l : sum_Position (sort_desc l) = sum_Position l.
Proof.
  induction l as [| r l IH]; simpl; [reflexivity |].
  rewrite sum_Position_insert, IH. reflexivity.
Qed.

Lemma sum_Position_app l1 l2 :
  sum_Position (l1 ++ l2) = sum_Position l1 + sum_Position l2.
Proof. unfold sum_Position. rewrite map_app. apply sumZ_app. Qed.

Lemma sum_Position_split (f : Row -> bool) l :
  sum_Position l
  = sum_Position (filter f l) + sum_Position (filter (fun r => negb (f r)) l).
Proof.
  unfold sum_Position. induction l as [| r l IH]; simpl; [reflexivity |].
  destruct (f r); simpl; lia.
Qed.

Lemma sum_Position_sort_values frame :
  sum_Position (sort_values_Strike_desc frame) = sum_Position frame.
Proof.
  unfold sort_values_Strike_desc.
  rewrite sum_Position_app, sum_Position_sort.
  rewrite (sum_Position_split (fun r => negb (isna (Strike r))) frame).
  f_equal. f_equal. apply filter_ext. intros r.
  rewrite negb_involutive. reflexivity.
Qed.

Lemma allocate_logged u puts tf tc :
  Forall (fun r => 0 <= Position r)
         (filter (fun r => negb (isna (Strike r))) puts) ->
  logged (allocate u (sort_values_Strike_desc puts) tf tc)
  = sum_Position (filter (fun r => negb (isna (Strike r))) puts).
Proof.
  intros H. rewrite allocate_sort_values. unfold allocate.
  set (ps := sort_desc (filter (fun r => negb (isna (Strike r))) puts)).
  assert (Hps : filter (fun r => negb (isna (Strike r))) ps = ps).
  { apply filter_all. apply Forall_forall. intros r Hr.
    apply (proj1 (sort_desc_In _ _)) in Hr. apply filter_In in Hr. apply Hr. }
  rewrite fold_strikes_logged.
  - rewrite visited_total, Hps. unfold ps. rewrite sum_Position_sort.
    unfold logged. simpl. lia.
  - rewrite Hps. apply Forall_forall. intros r Hr.
    apply (proj1 (sort_desc_In _ _)) in Hr.
    rewrite Forall_forall in H. apply H. exact Hr.
Qed.

(** The log accounts for every put that has a strike: when no such put
    has a negative position, the amounts of all steps of the log (Create
    Synthetic Call and Unmatched Puts) sum to the total position of the
    puts with a strike. *)
Lemma log_total_of_puts (df : DataFrame) (r : Run) :
  run (standardize df) = Some r ->
  Forall (fun p => 0 <= Position p) (puts_with_strike (standardize df)) ->
  sumZ (map log_Amount (transformation_log (allocation r)))
  = sum_Position (puts_with_strike (standardize df)).
Proof.
  intros H Hnn.
  destruct (run_Some _ H) as (u & _ & _ & _ & _ & _ & -> & _).
  apply allocate_logged. exact Hnn.
Qed.


Lemma valued_created_total u puts st :
  valued u puts st ->
  sumZ (map sc_Position (synthetic_calls st))
  = sumZ (map log_Amount (filter is_create (transformation_log st))).
Proof.
  unfold valued. intros H.
  induction H as [| sc e scs es Hv _ IH]; simpl; [reflexivity |].
  destruct Hv as (_ & -> & _). rewrite IH. reflexivity.
Qed.

Lemma positive_part_le (f : LogEntry -> bool) log :
  Forall (fun e => 0 < log_Amount e) log ->
  sumZ (map log_Amount (filter f log)) <= sumZ (map log_Amount log).
Proof.
  induction 1 as [| e log He _ IH]; simpl; [lia |].
  destruct (f e); simpl; lia.
Qed.

Lemma all_create_filter log :
  Forall (fun e => log_Action e = Create_Synthetic_Call) log ->
  filter is_create log = log.
Proof.
  intros H. apply filter_all. eapply Forall_impl; [| exact H].
  intros e He. unfold is_create. rewrite He. reflexivity.
Qed.

(** The facts about an allocation that the totals below combine. *)
Lemma allocate_summary u puts tf tc :
  let st := allocate u (sort_values_Strike_desc puts) tf tc in
  Forall (fun r => 0 <= Position r)
         (filter (fun r => negb (isna (Strike r))) puts) ->
  let matched := sumZ (map sc_Position (synthetic_calls st)) in
  let with_strike :=
    sum_Position (filter (fun r => negb (isna (Strike r))) puts) in
  matched = tf + tc - remaining_futures st - remaining_cash st
  /\ 0 <= matched <= with_strike
  /\ (matched = with_strike
      \/ (remaining_futures st <= 0 /\ remaining_cash st <= 0)).
Proof.
  intros st Hnn matched with_strike.
  pose proof (allocate_conserved u (sort_values_Strike_desc puts) tf tc)
    as (Hsum & _ & _).
  pose proof (allocate_amounts_positive u (sort_values_Strike_desc puts) tf tc)
    as [Hpos Hsc].
  pose proof (allocate_exhausted_if_unmatched u
                (sort_values_Strike_desc puts) tf tc) as Hx.
  pose proof (valued_created_total (allocate_valued u puts tf tc)) as Hc.
  pose proof (@allocate_logged u puts tf tc Hnn) as Hl.
  fold st in Hsum, Hpos, Hsc, Hx, Hc, Hl. fold matched in Hsum, Hc.
  fold with_strike in Hl. unfold logged in Hl.
  pose proof (positive_part_le is_create Hpos) as Hle.
  assert (H0 : 0 <= matched).
  { unfold matched. clear - Hsc.
    induction Hsc as [| sc scs [Hp _] _ IH]; simpl; lia. }
  split; [lia |]. split; [lia |].
  destruct Hx as [Hall | Hex]; [left | right; exact Hex].
  rewrite (all_create_filter Hall) in Hc. lia.
Qed.

(** The allocation converts as much as it can: when the total Futures
    and Cash quantities and the positions of the puts with a strike are not
    negative, the total quantity of the synthetic calls is the smaller of
    the total stock (Futures plus Cash) and the total position of the puts
    with a strike. *)
Lemma matched_total_is_min (df : DataFrame) (r : Run) :
  run (standardize df) = Some r ->
  0 <= total_futures r -> 0 <= total_cash r ->
  Forall (fun p => 0 <= Position p) (puts_with_strike (standardize df)) ->
  sumZ (map sc_Position (synthetic_calls (allocation r)))
  = Z.min (total_futures r + total_cash r)
          (sum_Position (puts_with_strike (standardize df))).
Proof.
  intros H Hf Hc Hnn.
  destruct (run_Some _ H) as (u & _ & _ & Etf & Etc & _ & Ea & _).
  pose proof (@allocate_summary u (filter is_put (standardize df))
                (total_futures r) (total_cash r)) as Hs.
  pose proof (allocate_not_overdrawn u
                (sort_values_Strike_desc (filter is_put (standardize df)))
                (total_futures r) (total_cash r)) as [Hrf Hrc].
  rewrite Etf, Etc, <- Ea in Hs, Hrf, Hrc. rewrite <- Etf, <- Etc in Hs.
  rewrite <- Etf in Hrf. rewrite <- Etc in Hrc.
  specialize (Hs Hnn). simpl in Hs. destruct Hs as (Hm & Hb & Hcase).
  specialize (Hrf Hf). specialize (Hrc Hc).
  unfold puts_with_strike.
  destruct Hcase as [Hq | [Hf0 Hc0]]; lia.
Qed.


Lemma sum_Position_nonneg rows :
  Forall (fun r => 0 <= Position r) rows -> 0 <= sum_Position rows.
Proof.
  unfold sum_Position. induction 1 as [| x l Hx _ IH]; simpl; lia.
Qed.

Lemma unmatched_loop_total rows unmatched :
  Forall (fun r => 0 <= Position r) rows ->
  0 <= unmatched <= sum_Position rows ->
  sumZ (map fp_Position (unmatched_loop rows unmatched)) = unmatched.
Proof.
  intros H. revert unmatched.
  induction H as [| row rows Hrow Hrows IH]; intros unmatched Hu; simpl.
  - unfold sum_Position in Hu. simpl in Hu.
    destruct (unmatched <=? 0); simpl; lia.
  - unfold sum_Position in Hu. simpl in Hu.
    fold (sum_Position rows) in Hu.
    pose proof (sum_Position_nonneg Hrows) as Hsum.
    destruct (Z.leb_spec unmatched 0); [simpl; lia |].
    destruct (Z.ltb_spec 0 (Z.min (Position row) unmatched)).
    + simpl. rewrite IH; lia.
    + rewrite IH; lia.
Qed.

(** Put-side conservation in total: when no put has a negative
    position, the quantities of the synthetic calls and the positions of
    the Unmatched Put rows of the final portfolio sum to the total position
    of all input puts, with or without a strike. *)
Lemma put_side_total (df : DataFrame) (r : Run) :
  run (standardize df) = Some r ->
  Forall (fun p => 0 <= Position p) (filter is_put (standardize df)) ->
  sumZ (map sc_Position (synthetic_calls (allocation r)))
  + sumZ (map fp_Position (rows_of_type Unmatched_Put (final_portfolio r)))
  = sum_Position (filter is_put (standardize df)).
Proof.
  intros H Hnn.
  destruct (@final_portfolio_by_type _ _ H) as (_ & _ & _ & _ & ->).
  destruct (run_Some _ H) as (u & _ & _ & Etf & Etc & Eps & Ea & _).
  set (puts := filter is_put (standardize df)) in *.
  assert (Hnn' : Forall (fun r => 0 <= Position r)
                   (filter (fun r => negb (isna (Strike r))) puts)).
  { apply Forall_forall. intros x Hx. apply filter_In in Hx.
    rewrite Forall_forall in Hnn. apply Hnn. apply Hx. }
  pose proof (@allocate_summary u puts (total_futures r) (total_cash r)) as Hs.
  rewrite Etf, Etc, <- Ea in Hs. rewrite <- Etf, <- Etc in Hs.
  specialize (Hs Hnn'). simpl in Hs. destruct Hs as (Hm & Hb & _).
  assert (Hmiss : 0 <= sum_Position
                         (filter (fun r => negb (negb (isna (Strike r)))) puts)).
  { apply sum_Position_nonneg.
    apply Forall_forall. intros x Hx. apply filter_In in Hx.
    rewrite Forall_forall in Hnn. apply Hnn. apply Hx. }
  pose proof (sum_Position_split (fun r => negb (isna (Strike r))) puts)
    as Hsplit.
  cbv beta in Hsplit.
  unfold unmatched_rows.
  destruct (Z.ltb_spec 0 (sum_Position puts
              - (total_futures r + total_cash r
                 - remaining_futures (allocation r)
                 - remaining_cash (allocation r)))) as [Hpos | Hle].
  - rewrite unmatched_loop_total.
    + lia.
    + rewrite Eps. apply Forall_forall. intros x Hx.
      apply (proj1 (sort_values_In _ _)) in Hx.
      rewrite Forall_forall in Hnn. apply Hnn. exact Hx.
    + rewrite Eps, sum_Position_sort_values. lia.
  - simpl. lia.
Qed.


(** ** Rows with an unrecognised instrument *)

Lemma filter_absorb {A : Type} (f g : A -> bool) l :
  (forall x, f x = true -> g x = true) ->
  filter f (filter g l) = filter f l.
Proof.
  intros H. rewrite filter_filter_and. apply filter_ext. intros x.
  destruct (f x) eqn:E; [rewrite (H x E); reflexivity | apply andb_false_r].
Qed.

Lemma run_recognized frame : run (filter is_recognized frame) = run frame.
Proof.
  unfold run.
  rewrite !(@filter_absorb _ is_futures is_recognized),
          !(@filter_absorb _ is_cash is_recognized),
          !(@filter_absorb _ is_put is_recognized),
          !(@filter_absorb _ is_call is_recognized);
    try reflexivity;
    intros x Hx; unfold is_recognized; rewrite Hx;
    repeat rewrite orb_true_r; reflexivity.
Qed.

(** X11. Rows whose instrument is none of Futures, Cash, a put or a call
    are ignored: removing them from the input changes nothing in what the
    run returns. *)
Theorem unrecognized_rows_ignored (df : DataFrame) :
  snd (process_portfolio
         (filter (fun r => is_recognized (standardize_row r)) df))
  = snd (process_portfolio df).
Proof.
  unfold process_portfolio. simpl.
  replace (standardize
             (filter (fun r => is_recognized (standardize_row r)) df))
    with (filter is_recognized (standardize df))
    by (rewrite filter_standardize; reflexivity).
  rewrite run_recognized. reflexivity.
Qed.

(** ** Risk types and the summary figures of [main] *)

Lemma unmatched_loop_risk rows unmatched :
  Forall risk_by_type (unmatched_loop rows unmatched).
Proof.
  revert unmatched. induction rows as [| row rows IH]; intros unmatched; simpl.
  - constructor.
  - destruct (unmatched <=? 0); [constructor |].
    destruct (0 <? Z.min (Position row) unmatched).
    + constructor; [reflexivity | apply IH].
    + apply IH.
Qed.

Lemma final_portfolio_risk_by_type frame r :
  run frame = Some r -> Forall risk_by_type (final_portfolio r).
Proof.
  intros H.
  destruct (run_Some _ H) as (u & _ & _ & _ & _ & _ & Ha & ->).
  repeat rewrite Forall_app. repeat split.
  - unfold stock_rows. apply Forall_app. split.
    + destruct (0 <? remaining_futures (allocation r));
        repeat constructor.
    + destruct (0 <? remaining_cash (allocation r));
        repeat constructor.
  - apply Forall_forall. intros e He.
    apply in_map_iff in He. destruct He as (sc & <- & Hsc).
    pose proof (allocate_amounts_positive u
                  (sort_values_Strike_desc (filter is_put frame))
                  (sum_Position (filter is_futures frame))
                  (sum_Position (filter is_cash frame))) as [_ Hs].
    rewrite <- Ha in Hs. rewrite Forall_forall in Hs.
    destruct (Hs sc Hsc) as [_ Ht].
    unfold risk_by_type. simpl. rewrite Ht. reflexivity.
  - apply Forall_forall. intros e He.
    apply in_map_iff in He. destruct He as (c & <- & _). reflexivity.
  - unfold unmatched_rows. destruct (0 <? _); [| constructor].
    apply unmatched_loop_risk.
Qed.

(** X12. The risk type of a final portfolio row is determined by its type:
    Futures and Cash rows are Long Stock, Synthetic Call and Original Call
    rows are Call-like, Unmatched Put rows are Put Protection. *)
Theorem risk_type_follows_type (df : DataFrame) (r : Run) :
  run (standardize df) = Some r ->
  Forall risk_by_type (final_portfolio r).
Proof. apply final_portfolio_risk_by_type. Qed.

Lemma risk_type_follows_type_witness :
  exists r, run (standardize load_sample_data) = Some r
            /\ Forall risk_by_type (final_portfolio r).
Proof.
  eexists. split; [vm_compute; reflexivity |].
  apply (@risk_type_follows_type load_sample_data).
  vm_compute; reflexivity.
Defined.

Lemma exposure_by_type risk l :
  Forall risk_by_type l ->
  exposure risk l
  = sumZ (map fp_Total_Value
              (filter (fun e => RiskType_eqb (risk_of (fp_Type e)) risk) l)).
Proof.
  intros H. unfold exposure. f_equal. f_equal.
  induction H as [| e l He _ IH]; simpl; [reflexivity |].
  rewrite He, IH. reflexivity.
Qed.

Lemma total_value_by_risk l :
  total_value l
  = exposure Long_Stock l + exposure Call_like l + exposure Put_Protection l.
Proof.
  unfold total_value, exposure.
  induction l as [| e l IH]; simpl; [reflexivity |].
  rewrite IH. destruct (fp_Risk_Type e); simpl; lia.
Qed.

Lemma sum_two_types (t1 t2 : EntryType) (risk : RiskType) l :
  (forall t, RiskType_eqb (risk_of t) risk
             = EntryType_eqb t t1 || EntryType_eqb t t2) ->
  t1 <> t2 ->
  sumZ (map fp_Total_Value
            (filter (fun e => RiskType_eqb (risk_of (fp_Type e)) risk) l))
  = sumZ (map fp_Total_Value (rows_of_type t1 l))
    + sumZ (map fp_Total_Value (rows_of_type t2 l)).
Proof.
  intros H Hne. unfold rows_of_type, has_type.
  induction l as [| e l IH]; simpl; [reflexivity |].
  rewrite H.
  destruct (EntryType_eqb (fp_Type e) t1) eqn:E1;
    destruct (EntryType_eqb (fp_Type e) t2) eqn:E2; simpl; try lia.
  exfalso. apply Hne.
  destruct (fp_Type e), t1, t2; simpl in *; congruence.
Qed.

(** The figures shown under the final portfolio (main, lines
    379-393): the total portfolio value is the sum of the Long Stock,
    Call-like and Put Protection exposures; the Long Stock exposure is the
    value of the Futures and Cash rows, the Call-like exposure the value of
    the Synthetic Call and Original Call rows, and the Put Protection the
    value of the Unmatched Put rows. *)
Lemma summary_figures_of_run (df : DataFrame) (r : Run) :
  run (standardize df) = Some r ->
  total_value (final_portfolio r)
  = exposure Long_Stock (final_portfolio r)
    + exposure Call_like (final_portfolio r)
    + exposure Put_Protection (final_portfolio r)
  /\ exposure Long_Stock (final_portfolio r)
     = total_value (rows_of_type Type_Futures (final_portfolio r))
       + total_value (rows_of_type Type_Cash (final_portfolio r))
  /\ exposure Call_like (final_portfolio r)
     = total_value (rows_of_type Synthetic_Call (final_portfolio r))
       + total_value (rows_of_type Original_Call (final_portfolio r))
  /\ exposure Put_Protection (final_portfolio r)
     = total_value (rows_of_type Unmatched_Put (final_portfolio r)).
Proof.
  intros H.
  pose proof (final_portfolio_risk_by_type _ H) as Hr.
  split; [apply total_value_by_risk |].
  rewrite !(exposure_by_type _ Hr). unfold total_value.
  split; [| split].
  - apply sum_two_types; [intros []; reflexivity | discriminate].
  - apply sum_two_types; [intros []; reflexivity | discriminate].
  - unfold rows_of_type, has_type. f_equal. f_equal.
    apply filter_ext. intros e. destruct (fp_Type e); reflexivity.
Qed.


(** ** [create_risk_visualization] *)

Section GroupBy.
Variables (K : Type) (keys : list K) (eqb : K -> K -> bool)
          (key : PortfolioEntry -> K).
Hypothesis eqb_spec : forall a b, eqb a b = true <-> a = b.
Hypothesis keys_NoDup : NoDup keys.
Hypothesis keys_all : forall k, In k keys.



End GroupBy.







(** ** Size of the transformation log *)

Lemma creates_snoc log e :
  creates (log ++ [e]) = creates log + (if is_create e then 1 else 0).
Proof.
  unfold creates. rewrite filter_app, length_app. simpl.
  destruct (is_create e); simpl; lia.
Qed.

Lemma others_snoc log e :
  others (log ++ [e]) = others log + (if is_create e then 0 else 1).
Proof.
  unfold others. rewrite filter_app, length_app. simpl.
  destruct (is_create e); simpl; lia.
Qed.

(** A pass that does not end the loop is the one that exhausts Futures. *)
Lemma pass_potential u k p ptp st :
  loop_cond ptp st = true ->
  pos (remaining_futures (snd (loop_body u k p ptp st)))
  + (if loop_cond (fst (loop_body u k p ptp st))
                  (snd (loop_body u k p ptp st)) then 1 else 0)
  <= pos (remaining_futures st).
Proof.
  intros Hc.
  destruct (loop_body_shape u k p ptp st Hc)
    as (amount & source & Hpos & Hle & Hbr & ->).
  unfold loop_cond, pos. simpl.
  destruct Hbr as [(-> & ? & ? & [-> | ->]) | (-> & ? & ? & [-> | ->])];
    simpl; rewrite ?Z.sub_diag; simpl;
    repeat match goal with
           | |- context [0 <? ?x] => destruct (Z.ltb_spec 0 x)
           end; simpl; lia.
Qed.

Lemma process_put_row_steps u k st row :
  creates (transformation_log (process_put_row u k st row))
  + pos (remaining_futures (process_put_row u k st row))
  <= creates (transformation_log st) + pos (remaining_futures st) + 1
  /\ others (transformation_log (process_put_row u k st row))
     <= others (transformation_log st) + 1.
Proof.
  pose (P := fun (ptp : Z) (s : Alloc) =>
          creates (transformation_log s) + pos (remaining_futures s)
          + (if loop_cond ptp s then 1 else 0)
          <= creates (transformation_log st) + pos (remaining_futures st) + 1
          /\ others (transformation_log s) = others (transformation_log st)).
  assert (HP : P (fst (while_loop u k (Market_price row) (Position row) st))
                 (snd (while_loop u k (Market_price row) (Position row) st))
               /\ loop_cond
                    (fst (while_loop u k (Market_price row) (Position row) st))
                    (snd (while_loop u k (Market_price row) (Position row) st))
                  = false).
  { apply (while_loop_inv P u k (Market_price row)).
    - intros ptp s Hc [Hcr Hot].
      pose proof (pass_potential u k (Market_price row) ptp s Hc) as Hp.
      destruct (loop_body_shape u k (Market_price row) ptp s Hc)
        as (amount & source & _ & _ & _ & E).
      rewrite Hc in Hcr.
      unfold P. rewrite E in Hp |- *. simpl in Hp |- *.
      rewrite creates_snoc, others_snoc. simpl. split; lia.
    - unfold P. split; [| reflexivity].
      destruct (loop_cond (Position row) st); lia. }
  unfold process_put_row.
  destruct (while_loop u k (Market_price row) (Position row) st)
    as [ptp' st'].
  destruct HP as [[Hcr Hot] Hend]. simpl in Hcr, Hot, Hend.
  rewrite Hend in Hcr.
  destruct (0 <? ptp'); simpl.
  - rewrite creates_snoc, others_snoc. simpl. split; lia.
  - split; lia.
Qed.

Lemma fold_rows_steps u k rows st :
  creates (transformation_log (fold_left (process_put_row u k) rows st))
  + pos (remaining_futures (fold_left (process_put_row u k) rows st))
  <= creates (transformation_log st) + pos (remaining_futures st)
     + Z.of_nat (List.length rows)
  /\ others (transformation_log (fold_left (process_put_row u k) rows st))
     <= others (transformation_log st) + Z.of_nat (List.length rows).
Proof.
  revert st. induction rows as [| row rows IH]; intros st.
  - simpl. split; lia.
  - cbn [fold_left List.length].
    destruct (IH (process_put_row u k st row)) as [H1 H2].
    destruct (process_put_row_steps u k st row) as [H3 H4].
    split; lia.
Qed.

Lemma sum_ones {A : Type} (l : list A) :
  sumZ (map (fun _ => 1) l) = Z.of_nat (List.length l).
Proof.
  induction l as [| x l IH]; [reflexivity |].
  cbn [map List.length]. rewrite Nat2Z.inj_succ.
  unfold sumZ in *. cbn [fold_right]. rewrite IH. lia.
Qed.

Lemma visited_count_total ps :
  sumZ (map (visited_count ps) (unique (map Strike ps)))
  = Z.of_nat (List.length (filter (fun r => negb (isna (Strike r))) ps)).
Proof.
  rewrite <- sum_ones.
  transitivity
    (sumZ (map (fun k =>
                  sumZ (map (fun _ : Row => 1)
                          (filter (fun x => same_value (Strike x) k)
                             (filter (fun r => negb (isna (Strike r))) ps))))
               (unique (map Strike ps)))).
  - f_equal. apply map_ext. intros [k |]; simpl.
    + rewrite filter_filter_and, <- sum_ones.
      f_equal. f_equal. apply filter_ext.
      intros r. destruct (Strike r); reflexivity.
    + rewrite filter_filter_and.
      rewrite (@filter_none _ _ ps); [reflexivity |].
      apply Forall_forall. intros r _. destruct (Strike r); reflexivity.
  - apply (@sum_by_key Row (option Z) Strike same_value (fun _ => 1)
             same_value_spec).
    + apply unique_NoDup.
    + intros r Hr. apply filter_In in Hr. apply unique_complete.
      apply in_map. apply Hr.
Qed.

Lemma fold_strikes_steps u ps strikes st :
  creates (transformation_log (fold_left (process_strike u ps) strikes st))
  + pos (remaining_futures (fold_left (process_strike u ps) strikes st))
  <= creates (transformation_log st) + pos (remaining_futures st)
     + sumZ (map (visited_count ps) strikes)
  /\ others (transformation_log (fold_left (process_strike u ps) strikes st))
     <= others (transformation_log st)
        + sumZ (map (visited_count ps) strikes).
Proof.
  revert st. induction strikes as [| s strikes IH]; intros st.
  - simpl. split; lia.
  - cbn [fold_left map sumZ fold_right].
    destruct (IH (process_strike u ps st s)) as [H1 H2].
    fold (sumZ (map (visited_count ps) strikes)).
    destruct s as [k |]; simpl in *.
    + destruct (fold_rows_steps u k
                  (filter (fun r => strike_eqb (Strike r) (Some k)) ps) st)
        as [H3 H4].
      split; lia.
    + split; lia.
Qed.

Lemma length_insert_desc r l :
  List.length (insert_desc r l) = S (List.length l).
Proof.
  induction l as [| h t IH]; simpl; [reflexivity |].
  destruct (strike_ltb (Strike r) (Strike h)); simpl; [rewrite IH |];
    reflexivity.
Qed.

Lemma length_sort_desc l : List.length (sort_desc l) = List.length l.
Proof.
  induction l as [| r l IH]; simpl; [reflexivity |].
  rewrite length_insert_desc, IH. reflexivity.
Qed.

Lemma length_split_create log :
  Z.of_nat (List.length log) = creates log + others log.
Proof.
  unfold creates, others. induction log as [| e log IH]; [reflexivity |].
  cbn [filter]. destruct (is_create e); cbn [negb List.length];
    rewrite !Nat2Z.inj_succ; lia.
Qed.

Lemma allocate_steps u puts tf tc :
  let st := allocate u (sort_values_Strike_desc puts) tf tc in
  let n := Z.of_nat (List.length
                       (filter (fun r => negb (isna (Strike r))) puts)) in
  creates (transformation_log st) <= n + 1
  /\ others (transformation_log st) <= n.
Proof.
  intros st n. unfold st. rewrite allocate_sort_values. unfold allocate.
  set (ps := sort_desc (filter (fun r => negb (isna (Strike r))) puts)).
  assert (Hps : filter (fun r => negb (isna (Strike r))) ps = ps).
  { apply filter_all. apply Forall_forall. intros r Hr.
    apply (proj1 (sort_desc_In _ _)) in Hr. apply filter_In in Hr. apply Hr. }
  destruct (fold_strikes_steps u ps (unique (map Strike ps))
              (mkAlloc tf tc [] [])) as [H1 H2].
  rewrite visited_count_total, Hps in H1, H2.
  assert (Hlen : List.length ps
                 = List.length (filter (fun r => negb (isna (Strike r))) puts))
    by (unfold ps; apply length_sort_desc).
  rewrite Hlen in H1, H2. fold n in H1, H2. simpl in H1, H2.
  assert (Hp : forall z, 0 <= pos z <= 1)
    by (intros z; unfold pos; destruct (0 <? z); lia).
  pose proof (Hp tf).
  pose proof (Hp (remaining_futures
                    (fold_left (process_strike u ps)
                       (unique (map Strike ps)) (mkAlloc tf tc [] [])))).
  unfold creates, others in *. simpl in *. split; lia.
Qed.

(** X15. The log is short: with [n] input puts that have a strike, the log
    holds at most [n + 1] Create Synthetic Call steps (only the lot during
    which Futures runs out is split in two) and at most [n] Unmatched Puts
    steps, so at most [2 n + 1] steps in all. *)
Theorem log_size_bound (df : DataFrame) (r : Run) :
  run (standardize df) = Some r ->
  (List.length (filter is_create (transformation_log (allocation r)))
   <= List.length (puts_with_strike (standardize df)) + 1)%nat
  /\ (List.length (filter (fun e => negb (is_create e))
                          (transformation_log (allocation r)))
      <= List.length (puts_with_strike (standardize df)))%nat
  /\ (List.length (transformation_log (allocation r))
      <= 2 * List.length (puts_with_strike (standardize df)) + 1)%nat.
Proof.
  intros H.
  destruct (run_Some _ H) as (u & _ & _ & _ & _ & _ & Ea & _).
  pose proof (allocate_steps u (filter is_put (standardize df))
                (sum_Position (filter is_futures (standardize df)))
                (sum_Position (filter is_cash (standardize df)))) as Hs.
  simpl in Hs. rewrite <- Ea in Hs. destruct Hs as [H1 H2].
  pose proof (length_split_create (transformation_log (allocation r))) as Hl.
  unfold creates, others, puts_with_strike in *. lia.
Qed.

Lemma log_size_bound_witness :
  exists r, run (standardize load_sample_data) = Some r
            /\ (List.length (transformation_log (allocation r))
                <= 2 * 5 + 1)%nat.
Proof.
  eexists. split; [vm_compute; reflexivity |].
  eapply proj2. eapply proj2.
  apply (@log_size_bound load_sample_data).
  vm_compute; reflexivity.
Defined.

(** ** Unmatched Put rows and their lots *)

Lemma unmatched_loop_taken rows unmatched :
  Forall (fun e => exists p, In p rows /\ taken_from p e)
         (unmatched_loop rows unmatched).
Proof.
  revert unmatched. induction rows as [| row rows IH]; intros unmatched; simpl.
  - constructor.
  - destruct (unmatched <=? 0); [constructor |].
    assert (Hrest : forall u',
              Forall (fun e => exists p, (row = p \/ In p rows)
                                         /\ taken_from p e)
                     (unmatched_loop rows u')).
    { intros u'. eapply Forall_impl; [| apply IH].
      intros e (p & Hp & Ht). exists p. split; [right |]; assumption. }
    destruct (Z.ltb_spec 0 (Z.min (Position row) unmatched)).
    + constructor; [| apply Hrest].
      exists row. split; [left; reflexivity |].
      unfold taken_from. simpl. repeat split; lia.
    + apply Hrest.
Qed.

(** X16. Every Unmatched Put row of the final portfolio is taken from an
    input put row: it carries that row's strike and market price, and a
    position that is positive and not larger than the row's position. *)
Theorem unmatched_rows_come_from_puts (df : DataFrame) (r : Run) :
  run (standardize df) = Some r ->
  Forall (fun e => exists p, In p (filter is_put (standardize df))
                             /\ taken_from p e)
         (rows_of_type Unmatched_Put (final_portfolio r)).
Proof.
  intros H.
  destruct (@final_portfolio_by_type _ _ H) as (_ & _ & _ & _ & ->).
  destruct (run_Some _ H) as (u & _ & _ & _ & _ & Eps & _).
  unfold unmatched_rows. destruct (0 <? _); [| constructor].
  eapply Forall_impl; [| apply unmatched_loop_taken].
  intros e (p & Hp & Ht). exists p. split; [| exact Ht].
  rewrite Eps in Hp. apply (proj1 (sort_values_In _ _)). exact Hp.
Qed.

Lemma unmatched_rows_come_from_puts_witness :
  exists r, run (standardize load_sample_data) = Some r
            /\ Forall (fun e => exists p,
                         In p (filter is_put (standardize load_sample_data))
                         /\ taken_from p e)
                      (rows_of_type Unmatched_Put (final_portfolio r)).
Proof.
  eexists. split; [vm_compute; reflexivity |].
  apply (@unmatched_rows_come_from_puts load_sample_data).
  vm_compute; reflexivity.
Defined.

(** ** Edge cases of the allocation *)

(** X18. Without a put that has a strike nothing is converted: the log and
    the list of synthetic calls are empty and both balances keep their
    totals. *)
Theorem no_puts_no_conversion (df : DataFrame) (r : Run) :
  run (standardize df) = Some r ->
  puts_with_strike (standardize df) = [] ->
  transformation_log (allocation r) = []
  /\ synthetic_calls (allocation r) = []
  /\ remaining_futures (allocation r) = total_futures r
  /\ remaining_cash (allocation r) = total_cash r.
Proof.
  intros H Hp.
  destruct (run_Some _ H) as (u & _ & _ & -> & -> & _ & -> & _).
  rewrite allocate_sort_values.
  unfold puts_with_strike in Hp. rewrite Hp.
  repeat split.
Qed.

Lemma no_puts_no_conversion_witness :
  exists r, run (standardize missing_strike_frame) = Some r
            /\ transformation_log (allocation r) = []
            /\ synthetic_calls (allocation r) = []
            /\ remaining_futures (allocation r) = total_futures r
            /\ remaining_cash (allocation r) = total_cash r.
Proof.
  eexists. split; [vm_compute; reflexivity |].
  apply (@no_puts_no_conversion missing_strike_frame);
    vm_compute; reflexivity.
Defined.

Lemma allocate_nothing_drawn u ps tf tc :
  tf <= 0 -> tc <= 0 -> nothing_drawn tf tc (allocate u ps tf tc).
Proof.
  intros Hf Hc. apply allocate_preserves.
  - intros row k ptp st _ _ Hcond (Ef & Ec & _).
    exfalso. unfold loop_cond in Hcond.
    apply andb_true_iff in Hcond. destruct Hcond as [_ Hcond].
    apply orb_true_iff in Hcond.
    destruct Hcond as [Hx | Hx]; apply Z.ltb_lt in Hx; lia.
  - intros row k ptp st _ _ _ (Ef & Ec & Es & Hl).
    unfold nothing_drawn. simpl. repeat split; try assumption.
    apply Forall_app. split; [exact Hl | repeat constructor].
  - repeat split. constructor.
Qed.

(** X19. With nothing to draw from (neither the total Futures nor the
    total Cash quantity is positive) no synthetic call is created: the
    balances keep their totals and every step of the log is an Unmatched
    Puts step. *)
Theorem no_stock_no_conversion (df : DataFrame) (r : Run) :
  run (standardize df) = Some r ->
  total_futures r <= 0 -> total_cash r <= 0 ->
  synthetic_calls (allocation r) = []
  /\ remaining_futures (allocation r) = total_futures r
  /\ remaining_cash (allocation r) = total_cash r
  /\ Forall (fun e => log_Action e = Unmatched_Puts)
            (transformation_log (allocation r)).
Proof.
  intros H Hf Hc.
  destruct (run_Some _ H) as (u & _ & _ & Etf & Etc & _ & Ea & _).
  rewrite Etf in Hf. rewrite Etc in Hc.
  destruct (@allocate_nothing_drawn u
              (sort_values_Strike_desc (filter is_put (standardize df)))
              _ _ Hf Hc) as (E1 & E2 & E3 & E4).
  rewrite <- Ea in E1, E2, E3, E4. rewrite Etf, Etc.
  repeat split; assumption.
Qed.

Lemma no_stock_no_conversion_witness :
  exists r, run (standardize empty_ledger_frame) = Some r
            /\ synthetic_calls (allocation r) = []
            /\ remaining_futures (allocation r) = total_futures r
            /\ remaining_cash (allocation r) = total_cash r
            /\ Forall (fun e => log_Action e = Unmatched_Puts)
                      (transformation_log (allocation r)).
Proof.
  eexists. split; [vm_compute; reflexivity |].
  apply (@no_stock_no_conversion empty_ledger_frame).
  - vm_compute; reflexivity.
  - vm_compute; discriminate.
  - vm_compute; discriminate.
Defined.

(** ** Valuation, lot by lot *)














(** ** Totals on frames where the code's arithmetic is exact *)

Lemma exact_quantities_nonneg df (f : Row -> bool) :
  exact_quantities df ->
  Forall (fun p => 0 <= Position p) (filter f (standardize df)).
Proof.
  intros [Hnn _]. apply Forall_forall. intros p Hp.
  apply filter_In in Hp. destruct Hp as [Hp _].
  apply in_map_iff in Hp. destruct Hp as (q & <- & Hq).
  rewrite Forall_forall in Hnn. apply (Hnn q Hq).
Qed.

(** X8. The log accounts for every put that has a strike: for every input
    frame whose quantities are non-negative integers with a total of at
    most [2 ^ 53] (where the code's int64 and float64 arithmetic is exact),
    the amounts of all steps of the log (Create Synthetic Call and
    Unmatched Puts) sum to the total position of the puts with a strike. *)
Theorem log_accounts_for_puts (df : DataFrame) (r : Run) :
  run (standardize df) = Some r ->
  exact_quantities df ->
  sumZ (map log_Amount (transformation_log (allocation r)))
  = sum_Position (puts_with_strike (standardize df)).
Proof.
  intros H Hx. apply (log_total_of_puts df H).
  unfold puts_with_strike. apply Forall_forall. intros p Hp.
  apply filter_In in Hp. destruct Hp as [Hp _].
  pose proof (exact_quantities_nonneg is_put Hx) as Hnn.
  rewrite Forall_forall in Hnn. apply Hnn. exact Hp.
Qed.

Lemma log_accounts_for_puts_witness :
  exists r, run (standardize load_sample_data) = Some r
            /\ sumZ (map log_Amount (transformation_log (allocation r)))
               = 315000.
Proof.
  eexists. split; [vm_compute; reflexivity |].
  rewrite (@log_accounts_for_puts load_sample_data).
  - vm_compute; reflexivity.
  - vm_compute; reflexivity.
  - exact sample_exact_quantities.
Defined.

(** X9. The allocation converts as much as it can: for every input frame
    whose quantities are non-negative integers with a total of at most
    [2 ^ 53], the total quantity of the synthetic calls is the smaller of
    the total stock (Futures plus Cash) and the total position of the puts
    with a strike. *)
Theorem matched_is_min (df : DataFrame) (r : Run) :
  run (standardize df) = Some r ->
  exact_quantities df ->
  sumZ (map sc_Position (synthetic_calls (allocation r)))
  = Z.min (total_futures r + total_cash r)
          (sum_Position (puts_with_strike (standardize df))).
Proof.
  intros H Hx.
  destruct (run_Some _ H) as (u & _ & _ & Etf & Etc & _).
  apply (matched_total_is_min df H).
  - rewrite Etf. apply sum_Position_nonneg.
    apply exact_quantities_nonneg. exact Hx.
  - rewrite Etc. apply sum_Position_nonneg.
    apply exact_quantities_nonneg. exact Hx.
  - unfold puts_with_strike. apply Forall_forall. intros p Hp.
    apply filter_In in Hp. destruct Hp as [Hp _].
    pose proof (exact_quantities_nonneg is_put Hx) as Hnn.
    rewrite Forall_forall in Hnn. apply Hnn. exact Hp.
Qed.

Lemma matched_is_min_witness :
  exists r, run (standardize load_sample_data) = Some r
            /\ sumZ (map sc_Position (synthetic_calls (allocation r)))
               = Z.min 300000 315000.
Proof.
  eexists. split; [vm_compute; reflexivity |].
  rewrite (@matched_is_min load_sample_data).
  - vm_compute; reflexivity.
  - vm_compute; reflexivity.
  - exact sample_exact_quantities.
Defined.

(** X10. Put-side conservation in total: for every input frame whose
    quantities are non-negative integers with a total of at most [2 ^ 53],
    the quantities of the synthetic calls and the positions of the
    Unmatched Put rows of the final portfolio sum to the total position of
    all input puts, with or without a strike. *)
Theorem put_side_conservation (df : DataFrame) (r : Run) :
  run (standardize df) = Some r ->
  exact_quantities df ->
  sumZ (map sc_Position (synthetic_calls (allocation r)))
  + sumZ (map fp_Position (rows_of_type Unmatched_Put (final_portfolio r)))
  = sum_Position (filter is_put (standardize df)).
Proof.
  intros H Hx. apply (put_side_total df H).
  apply exact_quantities_nonneg. exact Hx.
Qed.

Lemma put_side_conservation_witness :
  exists r, run (standardize load_sample_data) = Some r
            /\ sumZ (map sc_Position (synthetic_calls (allocation r)))
               + sumZ (map fp_Position
                         (rows_of_type Unmatched_Put (final_portfolio r)))
               = 315000.
Proof.
  eexists. split; [vm_compute; reflexivity |].
  rewrite (@put_side_conservation load_sample_data).
  - vm_compute; reflexivity.
  - vm_compute; reflexivity.
  - exact sample_exact_quantities.
Defined.

(** X13. The figures shown under the final portfolio (main, lines
    379-393), for a run on a frame of integers within the exact range and
    a final portfolio that is not empty and whose Total Values, times 100,
    sum within [2 ^ 53] in magnitude (so that [round(2)] changes nothing):
    the total portfolio value is the sum of the Long Stock, Call-like and
    Put Protection exposures; the Long Stock exposure is the value of the
    Futures and Cash rows, the Call-like exposure the value of the
    Synthetic Call and Original Call rows, and the Put Protection the value
    of the Unmatched Put rows. *)
Theorem summary_figures (df : DataFrame) (r : Run) :
  run (standardize df) = Some r ->
  exact_frame df ->
  exact_display (final_portfolio r) ->
  total_value (final_portfolio r)
  = exposure Long_Stock (final_portfolio r)
    + exposure Call_like (final_portfolio r)
    + exposure Put_Protection (final_portfolio r)
  /\ exposure Long_Stock (final_portfolio r)
     = total_value (rows_of_type Type_Futures (final_portfolio r))
       + total_value (rows_of_type Type_Cash (final_portfolio r))
  /\ exposure Call_like (final_portfolio r)
     = total_value (rows_of_type Synthetic_Call (final_portfolio r))
       + total_value (rows_of_type Original_Call (final_portfolio r))
  /\ exposure Put_Protection (final_portfolio r)
     = total_value (rows_of_type Unmatched_Put (final_portfolio r)).
Proof. intros H _ _. apply (summary_figures_of_run df H). Qed.

Lemma summary_figures_witness :
  exists r, run (standardize load_sample_data) = Some r
            /\ total_value (final_portfolio r)
               = exposure Long_Stock (final_portfolio r)
                 + exposure Call_like (final_portfolio r)
                 + exposure Put_Protection (final_portfolio r).
Proof.
  eexists. split; [vm_compute; reflexivity |].
  eapply proj1. apply (@summary_figures load_sample_data).
  - vm_compute; reflexivity.
  - exact sample_exact_frame.
  - split; vm_compute; discriminate.
Defined.



(** X17. Each put lot is accounted for in the log: for a lot of integer
    quantity between 0 and [2 ^ 53] and integer balances of magnitude at
    most [2 ^ 53] (where the code's int64 and float64 arithmetic is
    exact), the amounts of the steps that the lot adds to the log (its
    Create Synthetic Call steps and, if any, its Unmatched Puts step) sum
    to the quantity of the lot. *)
Theorem lot_accounted_in_log (u k : Z) (st : Alloc) (row : Row) :
  0 <= Position row <= 2 ^ 53 ->
  exact_ledger st ->
  exists steps,
    transformation_log (process_put_row u k st row)
      = transformation_log st ++ steps
    /\ sumZ (map log_Amount steps) = Position row.
Proof. intros [H _] _. apply put_row_log_conservation. exact H. Qed.

Lemma lot_accounted_in_log_witness :
  exists steps,
    transformation_log
      (process_put_row 10 9 (mkAlloc 1 1 [] []) (mkRow "puts" 3 (Some 9) 1))
      = [] ++ steps
    /\ sumZ (map log_Amount steps) = 3.
Proof.
  apply (@lot_accounted_in_log 10 9 (mkAlloc 1 1 [] [])
           (mkRow "puts" 3 (Some 9) 1)).
  - split; vm_compute; discriminate.
  - split; vm_compute; discriminate.
Defined.
